(** * Flipbook server: the temporary document lifecycle manager

    A shallow embedding of [server/src/index.js]: the configuration read
    from the environment, the multer storage callbacks, the document
    registry ([documents], a JavaScript [Map]), the per-document eviction
    timers and the three document routes.

    Conventions of the embedding.
    - The process state is passed explicitly ([state]): the registry, the
      pending timers, the files of the upload directory and a trace of the
      effects performed so far, oldest first.
    - What the code gets from outside is an argument of the operation:
      the clock ([Date.now()]), the identifier drawn by [randomUUID()],
      the way an [unlink] or a [sendFile] fails, the conversion
      [Number(string)] and the functions [path.extname] and
      [String.prototype.toLowerCase].
    - The numbers of the server are NaN, two infinities, or a finite
      double kept as the rational it stands for.  Arithmetic and [Number(string)] round
      to the nearest double, a tie going to the even one ([round64]);
      the sign of a zero is not kept.
    - An operation runs to its end as one step.  The only point where the
      code yields inside an operation is the [await unlink] of
      [removeDocument], and what follows it reads neither the registry nor
      the timers.
    - A multipart body is the list of the parts busboy reports for it
      ([part]), so it is a body busboy parses to its end.  A body that is
      malformed or cut short, for which busboy raises an error that multer
      passes to [next], is not such a list and is left out.
    - Each handler is the function Express calls for its route; the order
      in which the routes are tried is modelled apart ([stack], [route]).
      [timeout.unref()] changes nothing the model observes. *)

From stdpp Require Import gmap strings list.
From Stdlib Require Import QArith Qabs Qround Qminmax Lqa Ascii.

Close Scope Q_scope.
Open Scope string_scope.

(** ** JavaScript numbers *)

Inductive jsnum : Type :=
  | NaN
  | Infinity (negative : bool)
  | Finite (q : Q).

(** [Number.isFinite(n)] *)
Definition isFinite (n : jsnum) : bool :=
  match n with
  | Finite _ => true
  | _ => false
  end.

(** [n > 0] *)
Definition gt_zero (n : jsnum) : bool :=
  match n with
  | NaN => false
  | Infinity negative => negb negative
  | Finite q => negb (Qle_bool q 0)
  end.

(** *** Rounding to a double *)

(** [q * 2^e] *)
Definition Qshift (q : Q) (e : Z) : Q :=
  if (0 <=? e)%Z then (q * inject_Z (2 ^ e))%Q
  else (q / inject_Z (2 ^ (- e)))%Q.

(** The binary exponent of a [q] that is not zero: the [k] with
    [2^k <= |q| < 2^(k+1)]. *)
Definition Qlog2 (q : Q) : Z :=
  let k := (Z.log2 (Z.abs (Qnum q)) - Z.log2 (Z.pos (Qden q)))%Z in
  if Qle_bool (Qshift 1 k) (Qabs q) then k else (k - 1)%Z.

(** Rounding to the nearest whole number, a tie going to the even one. *)
Definition roundHalfEven (x : Q) : Z :=
  let f := Qfloor x in
  match (x - inject_Z f ?= 1 # 2)%Q with
  | Lt => f
  | Gt => (f + 1)%Z
  | Eq => if Z.even f then f else (f + 1)%Z
  end.

(** [q] rounded to the nearest multiple of [2^e]. *)
Definition roundAt (e : Z) (q : Q) : Q :=
  Qshift (inject_Z (roundHalfEven (Qshift q (- e)))) e.

(** The double nearest to [q] (IEEE 754 binary64, round to nearest, ties
    to even): 53 significant bits, the multiples of [2^-1074] below
    [2^-1022], and an infinity once the rounding reaches [2^1024]. *)
Definition round64 (q : Q) : jsnum :=
  if Qeq_bool q 0 then Finite 0
  else
    let r := roundAt (Z.max (Qlog2 q - 52) (-1074)) q in
    if Qle_bool (inject_Z (2 ^ 1024)) (Qabs r)
    then Infinity (negb (Qle_bool 0 q))
    else Finite (Qred r).


(** *** Arithmetic *)

(** [a * b] *)
Definition jsmul (a b : jsnum) : jsnum :=
  match a, b with
  | NaN, _ | _, NaN => NaN
  | Finite x, Finite y => round64 (x * y)
  | Infinity s, Finite y | Finite y, Infinity s =>
      if Qeq_bool y 0 then NaN
      else Infinity (xorb s (Qle_bool y 0))
  | Infinity s, Infinity t => Infinity (xorb s t)
  end.

(** [a + b] *)
Definition jsadd (a b : jsnum) : jsnum :=
  match a, b with
  | NaN, _ | _, NaN => NaN
  | Finite x, Finite y => round64 (x + y)
  | Infinity s, Finite _ | Finite _, Infinity s => Infinity s
  | Infinity s, Infinity t => if Bool.eqb s t then Infinity s else NaN
  end.

(** Truncation of a rational towards zero. *)
Definition Qtrunc (q : Q) : Z := Z.quot (Qnum q) (Z.pos (Qden q)).

(** A [Date] holds a whole number of milliseconds, or is an Invalid Date
    ([None]).  [new Date(t)] clips [t]: a value that is not finite or lies
    beyond 8.64e15 ms gives an Invalid Date, any other is truncated. *)
Definition Date : Type := option Z.

Definition maxTime : Z := 8640000000000000.

Definition newDate (t : jsnum) : Date :=
  match t with
  | Finite q =>
      if Qle_bool (Qabs q) (inject_Z maxTime) then Some (Qtrunc q) else None
  | _ => None
  end.

(** ** What the process gets from its runtime *)

(** [Number] is the conversion [Number(s)] of a string; [extname] is
    [path.extname]; [toLowerCase] is [String.prototype.toLowerCase];
    [process_env] is [process.env]; [uploadDir] is the resolved path of the
    upload directory (line 26) and [clientDistDir] that of the client
    build, the [clientDist] of line 130.  [path.resolve] gives both without
    a trailing separator. *)
Record runtime : Type := Runtime {
  Number : string → jsnum;
  extname : string → string;
  toLowerCase : string → string;
  process_env : string → option string;
  uploadDir : string;
  clientDistDir : string
}.

(** ** Configuration (index.js, lines 13-21) *)

(** [Number(process.env.NAME ?? dflt)] *)
Definition envNumber (rt : runtime) (name : string) (dflt : Q) : jsnum :=
  match process_env rt name with
  | Some s => Number rt s
  | None => Finite dflt
  end.

Definition UPLOAD_LIMIT_MB (rt : runtime) : jsnum :=
  envNumber rt "UPLOAD_LIMIT_MB" 25.

Definition DOCUMENT_TTL_MINUTES (rt : runtime) : jsnum :=
  envNumber rt "DOCUMENT_TTL_MINUTES" 30.

Definition uploadLimitMb (rt : runtime) : jsnum :=
  if isFinite (UPLOAD_LIMIT_MB rt) && gt_zero (UPLOAD_LIMIT_MB rt)
  then UPLOAD_LIMIT_MB rt else Finite 25.

Definition documentTtlMinutes (rt : runtime) : jsnum :=
  if isFinite (DOCUMENT_TTL_MINUTES rt) && gt_zero (DOCUMENT_TTL_MINUTES rt)
  then DOCUMENT_TTL_MINUTES rt else Finite 30.

Definition uploadLimitBytes (rt : runtime) : jsnum :=
  jsmul (jsmul (uploadLimitMb rt) (Finite 1024)) (Finite 1024).

Definition documentTtlMs (rt : runtime) : jsnum :=
  jsmul (jsmul (documentTtlMinutes rt) (Finite 60)) (Finite 1000).

(** ** Storage file names (index.js, lines 36-42) *)

(** [a || b] on strings: the empty string is falsy. *)
Definition or_else (a b : string) : string :=
  match a with
  | "" => b
  | _ => a
  end.

(** The extension chosen by the [filename] callback (line 38). *)
Definition storageExt (rt : runtime) (originalname : string) : string :=
  or_else (toLowerCase rt (extname rt originalname)) ".pdf".

(** The [filename] callback of the disk storage: [id] is the value of
    [randomUUID()]; the result is the name handed to [cb], and [id] is
    also left in [req.generatedDocumentId]. *)
Definition filename (rt : runtime) (id originalname : string) : string :=
  id +:+ storageExt rt originalname.

(** The [fileFilter] callback (lines 45-51): the error it reports, if any. *)
Definition fileFilter (mimetype : string) : option string :=
  if decide (mimetype = "application/pdf") then None
  else Some "Only PDF files are supported.".

(** ** The process state *)

(** A registry entry (the object stored by [documents.set], lines 69-76). *)
Record entry : Type := Entry {
  entry_path : string;
  entry_originalName : string;
  entry_size : Z;
  entry_mimeType : string;
  entry_expiresAt : Date;
  entry_timeout : nat
}.

(** The file object multer leaves in [req.file]. *)
Record file : Type := File {
  file_path : string;
  file_originalname : string;
  file_size : Z;
  file_mimetype : string
}.

(** What index.js does to the registry and to the outside world.
    [ServeStatic root] is [express.static(root)] answering a request from
    the files under [root]. *)
Inductive effect : Type :=
  | MapSet (id : string)
  | MapDelete (id : string)
  | SetTimeout (handle : nat)
  | ClearTimeout (handle : nat)
  | Unlink (path : string) (error : option string)
  | SendFile (path : string)
  | ServeStatic (root : string)
  | ConsoleError (message : string) (code : string).

(** [documents] is the registry; [timers] holds the pending timeouts, each
    with the [id] and [file.path] its callback closes over; [disk] is the
    set of paths present in the upload directory. *)
Record state : Type := State {
  documents : gmap string entry;
  timers : gmap nat (string * string);
  nextTimer : nat;
  disk : gset string;
  trace : list effect
}.

Definition initial : state :=
  {| documents := ∅; timers := ∅; nextTimer := 0; disk := ∅;
     trace := [] |}.

Definition emit (e : effect) (st : state) : state :=
  {| documents := documents st; timers := timers st;
     nextTimer := nextTimer st; disk := disk st;
     trace := trace st ++ [e] |}.

(** [documents.set(id, e)] *)
Definition documents_set (id : string) (e : entry) (st : state) : state :=
  emit (MapSet id)
    {| documents := <[id := e]> (documents st); timers := timers st;
       nextTimer := nextTimer st; disk := disk st; trace := trace st |}.

(** [documents.delete(id)] *)
Definition documents_delete (id : string) (st : state) : state :=
  emit (MapDelete id)
    {| documents := delete id (documents st); timers := timers st;
       nextTimer := nextTimer st; disk := disk st; trace := trace st |}.

(** [setTimeout(callback, delay)]: the callback is kept as the pair it
    closes over; the result is the handle of the new timer. *)
Definition setTimeout (closure : string * string) (st : state) : nat * state :=
  let h := nextTimer st in
  (h, emit (SetTimeout h)
        {| documents := documents st; timers := <[h := closure]> (timers st);
           nextTimer := S h; disk := disk st; trace := trace st |}).

(** [clearTimeout(h)]: a no-op on a timer that fired or was cleared. *)
Definition clearTimeout (h : nat) (st : state) : state :=
  emit (ClearTimeout h)
    {| documents := documents st; timers := delete h (timers st);
       nextTimer := nextTimer st; disk := disk st; trace := trace st |}.

(** The reasons for which the operating system refuses to delete a file
    that is there, or to write a file, and the [code] of the error Node
    reports for each. *)
Inductive errno : Type :=
  | EACCES | EBUSY | EIO | EISDIR | ENOMEM | EPERM | EROFS.

Definition errno_code (e : errno) : string :=
  match e with
  | EACCES => "EACCES"
  | EBUSY => "EBUSY"
  | EIO => "EIO"
  | EISDIR => "EISDIR"
  | ENOMEM => "ENOMEM"
  | EPERM => "EPERM"
  | EROFS => "EROFS"
  end.

(** [fsPromises.unlink(p)].  A file that is not there gives ENOENT.  For a
    file that is there, [fault] says whether the operating system refuses
    the deletion, and why.  The result is the code of the error, if any. *)
Definition unlink (fault : option errno) (p : string) (st : state)
  : option string * state :=
  if decide (p ∈ disk st) then
    match fault with
    | Some e =>
        (Some (errno_code e), emit (Unlink p (Some (errno_code e))) st)
    | None =>
        (None, emit (Unlink p None)
                 {| documents := documents st; timers := timers st;
                    nextTimer := nextTimer st; disk := disk st ∖ {[p]};
                    trace := trace st |})
    end
  else (Some "ENOENT", emit (Unlink p (Some "ENOENT")) st).

(** [console.error(message, error)] *)
Definition console_error (message code : string) (st : state) : state :=
  emit (ConsoleError message code) st.

(** ** Registration, eviction and release (index.js, lines 54-100) *)

(** The callback [registerDocument] hands to [setTimeout] (lines 56-63),
    for the [id] and [file.path] it closes over. *)
Definition evict (closure : string * string) (fault : option errno)
    (st : state) : state :=
  let st1 := documents_delete closure.1 st in
  let '(err, st2) := unlink fault closure.2 st1 in
  match err with
  | None => st2
  | Some code =>
      if decide (code = "ENOENT") then st2
      else console_error
             ("Failed to remove expired document " +:+ closure.1) code st2
  end.

(** A timer fires: the runtime takes it off its pending list and runs its
    callback.  A handle that is not pending does nothing. *)
Definition fireTimeout (h : nat) (fault : option errno) (st : state) : state :=
  match timers st !! h with
  | None => st
  | Some closure =>
      evict closure fault
        {| documents := documents st; timers := delete h (timers st);
           nextTimer := nextTimer st; disk := disk st; trace := trace st |}
  end.

(** [registerDocument(id, file)], with [now] the value of [Date.now()]. *)
Definition registerDocument (rt : runtime) (now : Z) (id : string) (f : file)
    (st : state) : Date * state :=
  let expiresAt := newDate (jsadd (Finite (inject_Z now)) (documentTtlMs rt)) in
  let '(timeout, st1) := setTimeout (id, file_path f) st in
  (expiresAt,
   documents_set id
     {| entry_path := file_path f;
        entry_originalName := file_originalname f;
        entry_size := file_size f;
        entry_mimeType := file_mimetype f;
        entry_expiresAt := expiresAt;
        entry_timeout := timeout |} st1).

(** How a call ends: it returns a value or throws an error with a code. *)
Inductive outcome (A : Type) : Type :=
  | Return (a : A)
  | Throw (code : string).
Arguments Return {A} a.
Arguments Throw {A} code.

(** [removeDocument(id)] *)
Definition removeDocument (fault : option errno) (id : string) (st : state)
  : outcome bool * state :=
  match documents st !! id with
  | None => (Return false, st)
  | Some e =>
      let st1 := clearTimeout (entry_timeout e) st in
      let st2 := documents_delete id st1 in
      let '(err, st3) := unlink fault (entry_path e) st2 in
      match err with
      | None => (Return true, st3)
      | Some code =>
          if decide (code = "ENOENT") then (Return true, st3)
          else (Throw code,
                console_error ("Failed to delete document " +:+ id) code st3)
      end
  end.

(** ** HTTP responses *)

Inductive message : Type :=
  | Text (s : string)
  | SizeLimit (mb : jsnum).   (* `PDFs up to ${mb}MB are accepted.` *)

Inductive response : Type :=
  | Json (status : nat) (error : message)
  | Created (id name : string) (size : Z) (expiresAt : Z)
  | NoContent
  | FileSent (path contentType : string) (contentLength : Z)
             (originalName : string)
  | FileAborted (path : string)
  | Unhandled (error : string).

(** The status line the client sees.  A response whose headers had gone
    out before the stream failed keeps the 200 of the file response; an
    error no handler answers gets the 500 of Express's final handler. *)
Definition status_of (r : response) : nat :=
  match r with
  | Json s _ => s
  | Created _ _ _ _ => 201
  | NoContent => 204
  | FileSent _ _ _ _ => 200
  | FileAborted _ => 200
  | Unhandled _ => 500
  end.

(** ** DELETE /api/documents/:id (lines 175-186) *)

Definition deleteDocument (fault : option errno) (id : string) (st : state)
  : response * state :=
  let '(removed, st1) := removeDocument fault id st in
  match removed with
  | Return false =>
      (Json 404 (Text "Document not found or already removed."), st1)
  | Return true => (NoContent, st1)
  | Throw _ => (Json 500 (Text "Unable to delete document."), st1)
  end.

(** ** GET /api/documents/:id (lines 141-173) *)

(** [res.sendFile(p, options, callback)]: what the callback receives.  For
    a file that is not there the error is ENOENT and no header has been
    sent.  For a file that is there, [io] says whether the transfer fails,
    with which error code, and whether the headers had gone out. *)
Inductive sendResult : Type :=
  | SendOk
  | SendError (code : string) (headersSent : bool).

Definition sendFile (io : option (string * bool)) (p : string) (st : state)
  : sendResult * state :=
  (if decide (p ∈ disk st) then
     match io with
     | None => SendOk
     | Some (code, sent) => SendError code sent
     end
   else SendError "ENOENT" false,
   emit (SendFile p) st).

Definition getDocument (io : option (string * bool)) (id : string)
    (st : state) : response * state :=
  match documents st !! id with
  | None => (Json 404 (Text "Document not found or has expired."), st)
  | Some e =>
      let '(r, st1) := sendFile io (entry_path e) st in
      match r with
      | SendOk =>
          (FileSent (entry_path e) (entry_mimeType e) (entry_size e)
             (entry_originalName e), st1)
      | SendError code headersSent =>
          if decide (code = "ENOENT") then
            (if headersSent then FileAborted (entry_path e)
             else Json 404 (Text "Document not found or has expired."),
             documents_delete id st1)
          else
            (if headersSent then FileAborted (entry_path e)
             else Json 500 (Text "Unable to retrieve document."),
             console_error ("Failed to stream document " +:+ id) code st1)
      end
  end.

(** ** POST /api/upload (lines 31-52, 109-128 and 188-201) *)

(** A part of a multipart body, as busboy reports it to multer: a text
    field with its value, or a file with the field name it was sent
    under, its file name (the base name of the name the client sent, empty
    when the part has none), its media type (type and subtype in lower
    case, without parameters) and its length in bytes. *)
Inductive part : Type :=
  | Field (name value : string)
  | FilePart (fieldname originalname mimetype : string) (size : Z).

Inductive uploadError : Type :=
  | MulterError (code message : string)
  | OtherError (message : string).

(** What [upload.single('file')] does with a request: it calls the route
    handler, with [req.file] and [req.generatedDocumentId] set or not, or
    it reports an error. *)
Inductive multerResult : Type :=
  | Accepted (req_file : option file) (generatedDocumentId : option string)
  | Rejected (err : uploadError).

(** busboy's default [limits.fieldSize], in bytes: a text field whose
    value reaches it is reported as truncated. *)
Definition fieldSize : Z := 1048576.

(** Whether a file of [size] bytes reaches [limits.fileSize].  busboy
    counts the bytes it hands on and stops when the count is the limit, so
    a file of exactly [limit] bytes counts as well. *)
Definition exceeds (size : Z) (limit : jsnum) : bool :=
  match limit with
  | Finite q => Qle_bool q (inject_Z size)
  | _ => false
  end.

(** What busboy hands on of a file of [size] bytes under the limit
    [limits.fileSize]: the number of bytes, or [None] when it raises
    'limit'.  It hands on [Math.min(length, limit - count)] bytes of each
    chunk, as a whole number of bytes, and raises 'limit' when the count
    equals the limit.  So a file that reaches a limit that is a whole
    number is refused, and a file that reaches a limit that is not one is
    cut to the whole bytes below the limit without any error. *)
Definition received (size : Z) (limit : jsnum) : option Z :=
  match limit with
  | Finite q =>
      if exceeds size limit then
        if Qeq_bool (inject_Z (Qfloor q)) q then None else Some (Qfloor q)
      else Some size
  | _ => Some size
  end.

Definition writeFile (p : string) (st : state) : state :=
  {| documents := documents st; timers := timers st;
     nextTimer := nextTimer st; disk := disk st ∪ {[p]}; trace := trace st |}.

Definition removeFile (p : string) (st : state) : state :=
  {| documents := documents st; timers := timers st;
     nextTimer := nextTimer st; disk := disk st ∖ {[p]}; trace := trace st |}.

(** multer removes the file it has stored when the request ends in an
    error. *)
Definition removeStored (stored : option file) (st : state) : state :=
  match stored with
  | Some f => removeFile (file_path f) st
  | None => st
  end.

(** A write that fails once the file has been opened leaves what it had
    written; multer does not remove it.  EIO is taken to come from a
    write, the other errors from the opening of the file. *)
Definition afterOpen (e : errno) : bool :=
  match e with
  | EIO => true
  | _ => false
  end.

(** multer's [single('file')] over the parts of the body, in order, with
    the storage of lines 31-52.  [uuid] is the value [randomUUID()]
    returns in the [filename] callback, and [fault] says whether the write
    of the file to the upload directory fails, and why.

    A text field goes to [req.body], unless its value reaches busboy's
    limit (LIMIT_FIELD_VALUE).  A file without a file name is drained and
    forgotten.  A file under another field name, or a second file, is
    LIMIT_UNEXPECTED_FILE; a file the filter refuses is the filter's
    error, and nothing is written.  Otherwise the file is written under
    the name the [filename] callback gives: a write that fails is the
    error of the file system; a file that reaches the size limit is
    LIMIT_FILE_SIZE, and what was written of it is removed.  On an error
    multer removes the file it had stored, and the later parts are not
    looked at.

    The parts are taken one at a time, each to the end of its write.
    (In a run of the code the write goes on while the next parts are
    parsed: when both a failing write and a later error occur, which of
    the two multer reports depends on timing; here it is the write's.) *)
Fixpoint upload_single (rt : runtime) (uuid : string) (fault : option errno)
    (ps : list part) (stored : option file) (st : state)
  : multerResult * state :=
  match ps with
  | [] =>
      (Accepted stored
         match stored with Some _ => Some uuid | None => None end, st)
  | Field _ value :: ps' =>
      if (fieldSize <=? Z.of_nat (String.length value))%Z then
        (Rejected (MulterError "LIMIT_FIELD_VALUE" "Field value too long"),
         removeStored stored st)
      else upload_single rt uuid fault ps' stored st
  | FilePart fieldname originalname mimetype size :: ps' =>
      if decide (originalname = "") then
        upload_single rt uuid fault ps' stored st
      else
        match stored with
        | Some f =>
            (Rejected
               (MulterError "LIMIT_UNEXPECTED_FILE" "Unexpected field"),
             removeFile (file_path f) st)
        | None =>
            if decide (fieldname = "file") then
              match fileFilter mimetype with
              | Some msg => (Rejected (OtherError msg), st)
              | None =>
                  let p :=
                    uploadDir rt +:+ "/" +:+ filename rt uuid originalname in
                  match fault with
                  | Some e =>
                      (Rejected (OtherError (errno_code e)),
                       if afterOpen e then writeFile p st else st)
                  | None =>
                      match received size (uploadLimitBytes rt) with
                      | None =>
                          (Rejected
                             (MulterError "LIMIT_FILE_SIZE" "File too large"),
                           removeFile p st)
                      | Some written =>
                          upload_single rt uuid fault ps'
                            (Some {| file_path := p;
                                     file_originalname := originalname;
                                     file_size := written;
                                     file_mimetype := mimetype |})
                            (writeFile p st)
                      end
                  end
              end
            else
              (Rejected
                 (MulterError "LIMIT_UNEXPECTED_FILE" "Unexpected field"),
               st)
        end
  end.

(** [single('file')] when the write of the file succeeds.  The handler is
    called with a file only then, so the accepted uploads are those of
    [single]. *)
Definition single (rt : runtime) (uuid : string) (ps : list part)
    (stored : option file) (st : state) : multerResult * state :=
  upload_single rt uuid None ps stored st.

(** The route handler (lines 109-128).  [uuid'] is the value of the
    [randomUUID()] of line 119, [now] that of [Date.now()].  An Invalid
    Date makes [toISOString()] throw a RangeError. *)
Definition uploadHandler (rt : runtime) (now : Z) (uuid' : string)
    (fault : option errno) (req_file : option file)
    (generatedDocumentId : option string) (st : state) : response * state :=
  match req_file with
  | None => (Json 400 (Text "No file uploaded"), st)
  | Some f =>
      if decide (file_mimetype f = "application/pdf") then
        let id := default uuid' generatedDocumentId in
        let '(expiresAt, st1) := registerDocument rt now id f st in
        match expiresAt with
        | Some t => (Created id (file_originalname f) (file_size f) t, st1)
        | None => (Unhandled "RangeError", st1)
        end
      else
        let '(_, st1) := unlink fault (file_path f) st in
        (Json 400 (Text "Only PDF files are supported."), st1)
  end.

(** The error-handling middleware (lines 188-201).  An error it passes
    to [next] goes to the final handler of Express ([Unhandled]). *)
Definition errorMiddleware (rt : runtime) (err : uploadError) : response :=
  match err with
  | MulterError code msg =>
      if decide (code = "LIMIT_FILE_SIZE")
      then Json 400 (SizeLimit (uploadLimitMb rt))
      else Json 400 (Text msg)
  | OtherError msg =>
      if decide (msg = "Only PDF files are supported.")
      then Json 400 (Text msg)
      else Unhandled msg
  end.

(** The whole route: multer, then the handler or the error middleware.
    [fault] is the way the file system fails the request, if it does: the
    write of the uploaded file, or the [unlink] of line 115. *)
Definition postUpload (rt : runtime) (now : Z) (uuid uuid' : string)
    (fault : option errno) (body : list part) (st : state)
  : response * state :=
  let '(r, st1) := upload_single rt uuid fault body None st in
  match r with
  | Accepted req_file generatedDocumentId =>
      uploadHandler rt now uuid' fault req_file generatedDocumentId st1
  | Rejected err => (errorMiddleware rt err, st1)
  end.

(** ** A concrete runtime, to run the model on examples *)

(** [path.extname] of Node on POSIX: the scan from the end of the path
    for the last dot of the last component. *)
Record extScan : Type := ExtScan {
  startDot : Z;
  startPart : Z;
  scanEnd : Z;
  matchedSlash : bool;
  preDotState : Z
}.

Fixpoint extnameScan (rev_chars : list ascii) (i : Z) (s : extScan)
  : extScan :=
  match rev_chars with
  | [] => s
  | c :: rest =>
      if Ascii.eqb c "/" then
        if negb (matchedSlash s) then
          {| startDot := startDot s; startPart := i + 1; scanEnd := scanEnd s;
             matchedSlash := matchedSlash s; preDotState := preDotState s |}
        else extnameScan rest (i - 1) s
      else
        let s1 :=
          if (scanEnd s =? -1)%Z then
            {| startDot := startDot s; startPart := startPart s;
               scanEnd := i + 1; matchedSlash := false;
               preDotState := preDotState s |}
          else s in
        let s2 :=
          if Ascii.eqb c "." then
            if (startDot s1 =? -1)%Z then
              {| startDot := i; startPart := startPart s1;
                 scanEnd := scanEnd s1; matchedSlash := matchedSlash s1;
                 preDotState := preDotState s1 |}
            else
              {| startDot := startDot s1; startPart := startPart s1;
                 scanEnd := scanEnd s1; matchedSlash := matchedSlash s1;
                 preDotState := 1 |}
          else if negb (startDot s1 =? -1)%Z then
            {| startDot := startDot s1; startPart := startPart s1;
               scanEnd := scanEnd s1; matchedSlash := matchedSlash s1;
               preDotState := -1 |}
          else s1 in
        extnameScan rest (i - 1) s2
  end.

Definition posixExtname (p : string) : string :=
  let s :=
    extnameScan (rev (String.list_ascii_of_string p))
      (Z.of_nat (String.length p) - 1)
      {| startDot := -1; startPart := 0; scanEnd := -1;
         matchedSlash := true; preDotState := 0 |} in
  if (startDot s =? -1)%Z || (scanEnd s =? -1)%Z || (preDotState s =? 0)%Z
     || ((preDotState s =? 1)%Z && (startDot s =? scanEnd s - 1)%Z
         && (startDot s =? startPart s + 1)%Z)
  then ""
  else String.substring (Z.to_nat (startDot s))
         (Z.to_nat (scanEnd s - startDot s)) p.

(** [toLowerCase] on ASCII text. *)
Definition asciiLower (c : ascii) : ascii :=
  let n := N_of_ascii c in
  if (65 <=? n)%N && (n <=? 90)%N then ascii_of_N (n + 32) else c.

Fixpoint asciiToLowerCase (s : string) : string :=
  match s with
  | EmptyString => EmptyString
  | String c s' => String (asciiLower c) (asciiToLowerCase s')
  end.

(** [Number(s)] on plain decimal literals: an optional sign, digits with
    at most one point, or "Infinity"; the empty string is 0 and anything
    else is NaN.  The value of the literal is rounded to a double.
    (Exponents, radix prefixes and surrounding white space are left
    out.) *)
Definition digitValue (c : ascii) : option Z :=
  let n := N_of_ascii c in
  if (48 <=? n)%N && (n <=? 57)%N then Some (Z.of_N (n - 48)) else None.

Fixpoint decimalScan (s : string) (num : Z) (den : positive)
    (seenPoint seenDigit : bool) : option Q :=
  match s with
  | EmptyString => if seenDigit then Some (num # den)%Q else None
  | String c s' =>
      match digitValue c with
      | Some d =>
          decimalScan s' (num * 10 + d)
            (if seenPoint then den * 10 else den)%positive seenPoint true
      | None =>
          if Ascii.eqb c "." && negb seenPoint
          then decimalScan s' num den true seenDigit
          else None
      end
  end.

Definition unsignedNumber (s : string) : jsnum :=
  if String.eqb s "Infinity" then Infinity false
  else match decimalScan s 0 1 false false with
       | Some q => round64 q
       | None => NaN
       end.

Definition jsneg (n : jsnum) : jsnum :=
  match n with
  | NaN => NaN
  | Infinity s => Infinity (negb s)
  | Finite q => Finite (- q)
  end.

Definition decimalNumber (s : string) : jsnum :=
  match s with
  | EmptyString => Finite 0
  | String "-" s' => jsneg (unsignedNumber s')
  | String "+" s' => unsignedNumber s'
  | _ => unsignedNumber s
  end.

(** A Node process on POSIX started with the environment [env]. *)
Definition node (env : list (string * string)) : runtime :=
  {| Number := decimalNumber;
     extname := posixExtname;
     toLowerCase := asciiToLowerCase;
     process_env := fun name => (list_to_map env : gmap string string) !! name;
     uploadDir := "/srv/server/uploads";
     clientDistDir := "/srv/client/dist" |}.

(** ** The server as a state machine *)

(** What can happen to the process: a request on one of the three routes,
    or a pending timer firing. *)
Inductive event : Type :=
  | Upload (now : Z) (uuid uuid' : string) (fault : option errno)
           (body : list part)
  | Fetch (io : option (string * bool)) (id : string)
  | Release (fault : option errno) (id : string)
  | Timeout (h : nat) (fault : option errno).

Definition step (rt : runtime) (ev : event) (st : state) : state :=
  match ev with
  | Upload now uuid uuid' fault body =>
      (postUpload rt now uuid uuid' fault body st).2
  | Fetch io id => (getDocument io id st).2
  | Release fault id => (deleteDocument fault id st).2
  | Timeout h fault => fireTimeout h fault st
  end.

Definition run (rt : runtime) (evs : list event) (st : state) : state :=
  foldl (λ s ev, step rt ev s) st evs.

(** An upload for which [randomUUID()] returns [id]. *)
Definition draws (id : string) (ev : event) : Prop :=
  match ev with
  | Upload _ uuid _ _ _ => uuid = id
  | _ => False
  end.

(** ** Well-formed states *)

(** Every pending timer was handed out by [setTimeout]. *)
Definition handles_fresh (st : state) : Prop :=
  ∀ h, is_Some (timers st !! h) → h < nextTimer st.

(** The timer recorded in an entry is pending, and it is the timer of that
    entry: its callback closes over the entry's id and path. *)
Definition entries_own_timers (st : state) : Prop :=
  ∀ id e, documents st !! id = Some e →
          timers st !! entry_timeout e = Some (id, entry_path e).

Definition well_formed (st : state) : Prop :=
  handles_fresh st ∧ entries_own_timers st.

(** ** The extension scan *)

(** What holds of the scan of the characters [l] once it has stopped: if
    it found both a dot and an end, the characters from the dot to the
    end are inside [l] and none of them is a separator. *)
Definition scan_result_ok (l : list ascii) (s : extScan) : Prop :=
  startDot s = (-1)%Z ∨ scanEnd s = (-1)%Z
  ∨ ((0 ≤ startDot s < scanEnd s)%Z
     ∧ ∀ k : nat, (startDot s ≤ Z.of_nat k < scanEnd s)%Z →
                  l !! k ≠ Some "/"%char).

(** What holds while the scan is about to read position [i]. *)
Definition scan_invariant (l : list ascii) (i : Z) (s : extScan) : Prop :=
  (scanEnd s = (-1)%Z ∧ startDot s = (-1)%Z)
  ∨ ((i < scanEnd s)%Z
     ∧ matchedSlash s = false
     ∧ (startDot s = (-1)%Z ∨ (i < startDot s < scanEnd s)%Z)
     ∧ ∀ k : nat, (i < Z.of_nat k < scanEnd s)%Z →
                  l !! k ≠ Some "/"%char).

(** The characters of a string. *)
Definition chars (s : string) : list ascii := String.list_ascii_of_string s.

(** ** The configuration rule in the words of its description *)

(** The value kept for a variable whose default is [d], given what
    [Number] makes of it when it is set: the default when the variable is
    unset, not a number, not finite, zero or negative; the number itself
    when it is finite and strictly positive. *)
Definition fallback_spec (raw : option jsnum) (d : Q) : jsnum :=
  match raw with
  | None => Finite d
  | Some NaN => Finite d
  | Some (Infinity _) => Finite d
  | Some (Finite q) => if Qlt_le_dec 0 q then Finite q else Finite d
  end.

(** ** Sample data *)

Definition reportPdf : part :=
  FilePart "file" "Report.PDF" "application/pdf" 10.

Definition reportPath : string := "/srv/server/uploads/7f3c.pdf".

(** The state after one accepted upload, at time 1700000000000 with the
    default configuration, when [randomUUID()] returns "7f3c". *)
Definition afterUpload : state :=
  (postUpload (node []) 1700000000000 "7f3c" "" None [reportPdf] initial).2.

(** The registry entry of that upload. *)
Definition reportEntry : entry :=
  {| entry_path := reportPath;
     entry_originalName := "Report.PDF";
     entry_size := 10;
     entry_mimeType := "application/pdf";
     entry_expiresAt := Some 1700001800000%Z;
     entry_timeout := 0 |}.

(** The same state once the backing file has been deleted from outside. *)
Definition afterUploadFileGone : state := removeFile reportPath afterUpload.

(** A second file, and the entry [registerDocument] makes of it when it
    is registered under "7f3c" at time 1700000060000. *)
Definition otherFile : file :=
  {| file_path := "/srv/server/uploads/other.pdf";
     file_originalname := "Other.pdf";
     file_size := 20;
     file_mimetype := "application/pdf" |}.

Definition otherEntry : entry :=
  {| entry_path := "/srv/server/uploads/other.pdf";
     entry_originalName := "Other.pdf";
     entry_size := 20;
     entry_mimeType := "application/pdf";
     entry_expiresAt := Some 1700001860000%Z;
     entry_timeout := 1 |}.


(** A process configured to keep documents for 0.016666666 minutes:
    a little less than a second. *)
Definition nearlyOneSecond : runtime :=
  node [("DOCUMENT_TTL_MINUTES", "0.016666666")].

(** A retrieval, an upload under another identifier and a timer firing. *)
Definition laterEvents : list event :=
  [Fetch None "7f3c";
   Upload 1700000030000 "91aa" "" None
     [FilePart "file" "Second.pdf" "application/pdf" 20];
   Fetch (Some ("ECONNABORTED", true)) "7f3c";
   Timeout 1 None].

(** ** Bodies, subjects and upload invariants *)

(** A part multer passes over: a text field whose value is below
    busboy's limit, or a file without a file name. *)
Definition passed_over (p : part) : Prop :=
  match p with
  | Field _ value => (Z.of_nat (String.length value) < fieldSize)%Z
  | FilePart _ originalname _ _ => originalname = ""
  end.

(** The id an event is about: the identifier an upload draws, the id in
    the path of a retrieval or a release, the id a pending timer closes
    over. *)
Definition subject (ev : event) (st : state) : option string :=
  match ev with
  | Upload _ uuid _ _ _ => Some uuid
  | Fetch _ id => Some id
  | Release _ id => Some id
  | Timeout h _ => fst <$> timers st !! h
  end.


(** A path the upload route made: in the upload directory, one of the
    identifiers [drawn] followed by the extension taken from an original
    name. *)
Definition in_upload_dir (rt : runtime) (drawn : string → Prop) (p : string)
  : Prop :=
  ∃ id name,
    drawn id ∧ p = uploadDir rt +:+ "/" +:+ id +:+ storageExt rt name.

(** An effect that touches no file, or a file the upload route made. *)
Definition effect_in_upload_dir (rt : runtime) (drawn : string → Prop)
    (ef : effect) : Prop :=
  match ef with
  | Unlink p _ => in_upload_dir rt drawn p
  | SendFile p => in_upload_dir rt drawn p
  | ServeStatic _ => False
  | _ => True
  end.

(** The paths the process holds and the paths it has touched are all
    paths the upload route made. *)
Definition paths_in_upload_dir (rt : runtime) (drawn : string → Prop)
    (st : state) : Prop :=
  (∀ id e, documents st !! id = Some e →
           in_upload_dir rt drawn (entry_path e))
  ∧ (∀ h closure, timers st !! h = Some closure →
                  in_upload_dir rt drawn closure.2)
  ∧ Forall (effect_in_upload_dir rt drawn) (trace st).

(** ** Routing (the order of the registrations, index.js lines 102-201) *)

(** The methods the API uses, and the request path as the route patterns
    classify it. *)
Inductive method : Type := GET | POST | DELETE.

Inductive target : Type :=
  | ApiHealth
  | ApiUpload
  | ApiDocument (id : string)
  | Elsewhere.

(** A request, with what the handler that answers it gets from outside:
    [req_static] says whether [express.static] answers the request from
    the files of [client/dist]. *)
Record request : Type := Request {
  req_method : method;
  req_target : target;
  req_static : bool;
  req_body : list part;
  req_now : Z;
  req_uuid : string;
  req_uuid' : string;
  req_fault : option errno;
  req_io : option (string * bool)
}.

(** The layers that can answer a request, in the order index.js registers
    them.  [cors()] and [express.json()] pass the requests modelled here
    on, and the error middleware is part of [postUpload]. *)
Inductive layer : Type :=
  | HealthRoute
  | UploadRoute
  | StaticFiles
  | Wildcard
  | GetDocumentRoute
  | DeleteDocumentRoute.

(** [clientDist] is the value of [fs.existsSync(clientDist)] when the
    process starts (line 132). *)
Definition stack (clientDist : bool) : list layer :=
  [HealthRoute; UploadRoute]
  ++ (if clientDist then [StaticFiles; Wildcard] else [])
  ++ [GetDocumentRoute; DeleteDocumentRoute].

Inductive served : Type :=
  | Handled (r : response)
  | HealthOk
  | StaticAsset
  | IndexHtml
  | NoRoute.

(** What a layer does with a request: it answers, or ([None]) it passes
    the request on to the next layer.  The catch-all route answers with
    [res.sendFile(path.join(clientDist, 'index.html'))] (line 135). *)
Definition handle (rt : runtime) (l : layer) (req : request) (st : state)
  : option (served * state) :=
  match l, req_method req, req_target req with
  | HealthRoute, GET, ApiHealth => Some (HealthOk, st)
  | UploadRoute, POST, ApiUpload =>
      let '(r, st') :=
        postUpload rt (req_now req) (req_uuid req) (req_uuid' req)
          (req_fault req) (req_body req) st in
      Some (Handled r, st')
  | StaticFiles, GET, _ =>
      if req_static req
      then Some (StaticAsset, emit (ServeStatic (clientDistDir rt)) st)
      else None
  | Wildcard, GET, _ =>
      Some (IndexHtml, emit (SendFile (clientDistDir rt +:+ "/index.html")) st)
  | GetDocumentRoute, GET, ApiDocument id =>
      let '(r, st') := getDocument (req_io req) id st in
      Some (Handled r, st')
  | DeleteDocumentRoute, DELETE, ApiDocument id =>
      let '(r, st') := deleteDocument (req_fault req) id st in
      Some (Handled r, st')
  | _, _, _ => None
  end.

(** Express tries the layers in order; a request no layer answers gets
    the 404 of the final handler. *)
Fixpoint route (rt : runtime) (layers : list layer) (req : request)
    (st : state) : served * state :=
  match layers with
  | [] => (NoRoute, st)
  | l :: layers' =>
      match handle rt l req st with
      | Some answer => answer
      | None => route rt layers' req st
      end
  end.

(** ** The client's release call (App.tsx, lines 93-106 and 128-138) *)

(** What [fetch] gives: a response with its status and body text, or a
    rejection, with the message of the error when it is an [Error]. *)
Inductive fetched : Type :=
  | Responded (status : nat) (text : string)
  | Failed (error : option string).

Inductive completion : Type :=
  | Done
  | Raised (message : string).

(** [response.ok] *)
Definition response_ok (status : nat) : bool :=
  (200 <=? status)%nat && (status <=? 299)%nat.

(** [deleteServerDocument(id)], given what its [fetch] gives. *)
Definition deleteServerDocument (f : fetched) : completion :=
  match f with
  | Responded status text =>
      if negb (response_ok status) && negb (status =? 404)%nat
      then Raised (or_else text "Unable to release server document")
      else Done
  | Failed (Some message) => Raised message
  | Failed None => Raised "Unexpected error releasing server document"
  end.

(** [releaseServerDocument(id)]: the warnings it logs.  It makes no call
    for a null or empty id, and it never throws. *)
Definition releaseServerDocument (id : option string) (f : fetched)
  : list string :=
  match id with
  | None => []
  | Some "" => []
  | Some _ =>
      match deleteServerDocument f with
      | Done => []
      | Raised message => [message]
      end
  end.

(** ** The page-turn animation (Flipbook.tsx, lines 19-25 and 142-155) *)

(** Times and progress are finite numbers, kept as exact rationals. *)
Definition TURN_DURATION : Q := 720.

(** [Math.max(min, Math.min(max, value))] *)
Definition clamp (value min max : Q) : Q := Qmax min (Qmin max value).

(** [1 - Math.pow(1 - value, 3)] *)
Definition easeOutCubic (value : Q) : Q := (1 - (1 - value) ^ 3)%Q.

(** What a frame of a page turn leaves: the turn goes on with the progress
    set by [setProgress], or it has landed (the index moves to the target,
    the animation is cleared and the progress is reset). *)
Inductive frame : Type :=
  | Turning (progress : Q)
  | Landed.

(** The [tick] callback, for a turn started at [start] and a frame whose
    timestamp is [now]. *)
Definition tick (start now : Q) : frame :=
  let elapsed := (now - start)%Q in
  let next := clamp (elapsed / TURN_DURATION) 0 1 in
  if Qlt_le_dec next 1 then Turning (easeOutCubic next) else Landed.

(** [flipAngle] while turning forward and backward (lines 227 and 248). *)
Definition flipAngleForward (progress : Q) : Q := (-180 * progress)%Q.
Definition flipAngleBackward (progress : Q) : Q := (-180 + 180 * progress)%Q.

(** ** The CMap download (fetch-cmaps.mjs, lines 49-75) *)

(** What [https.get] gives for a URL: an error, or a response with its
    status code and its Location header. *)
Inductive httpsGet : Type :=
  | GetError (message : string)
  | GetResponse (statusCode : nat) (location : option string).

Inductive downloadError : Type :=
  | TooManyRedirects
  | BadStatus (url : string) (statusCode : nat)
  | NetworkError (message : string).

Inductive downloaded : Type :=
  | Resolved (url : string)
  | RejectedWith (reason : downloadError).

(** A header that is present and not empty. *)
Definition truthy (header : option string) : option string :=
  match header with
  | Some "" => None
  | other => other
  end.

(** [downloadStream(url, redirectCount)]: the outcome of the promise and
    the URLs requested, first to last.  [get] is what [https.get] gives
    and [resolveUrl location url] is [new URL(location, url).toString()].
    The recursion of the source is bounded by [fuel]; [None] means the
    fuel ran out. *)
Fixpoint downloadStreamFrom (fuel : nat) (get : string → httpsGet)
    (resolveUrl : string → string → string) (url : string)
    (redirectCount : nat) : option (downloaded * list string) :=
  if (5 <? redirectCount)%nat then Some (RejectedWith TooManyRedirects, [])
  else
    match fuel with
    | O => None
    | S fuel' =>
        match get url with
        | GetError message => Some (RejectedWith (NetworkError message), [url])
        | GetResponse statusCode location =>
            match
              (if (300 <=? statusCode)%nat && (statusCode <? 400)%nat
               then truthy location else None)
            with
            | Some target =>
                match
                  downloadStreamFrom fuel' get resolveUrl
                    (resolveUrl target url) (redirectCount + 1)
                with
                | Some (outcome, urls) => Some (outcome, url :: urls)
                | None => None
                end
            | None =>
                if (statusCode =? 200)%nat then Some (Resolved url, [url])
                else Some (RejectedWith (BadStatus url statusCode), [url])
            end
        end
    end.

(** [downloadStream(url)], with the default [redirectCount] of 0. *)
Definition downloadStream (get : string → httpsGet)
    (resolveUrl : string → string → string) (url : string)
  : option (downloaded * list string) :=
  downloadStreamFrom 6 get resolveUrl url 0.

(** ** More sample data *)

(** A request for the document of [afterUpload]. *)
Definition fetchReport : request :=
  {| req_method := GET; req_target := ApiDocument "7f3c";
     req_static := false; req_body := []; req_now := 1700000001000;
     req_uuid := "91aa"; req_uuid' := ""; req_fault := None;
     req_io := None |}.

Definition uploadBody : list part :=
  [Field "title" "Report"; reportPdf; Field "note" "draft"].

(** * Properties *)

(** ** The model run on examples *)

(** The examples of the Node documentation for [path.extname]. *)
Example extname_examples :
  map posixExtname
    ["index.html"; "index.coffee.md"; "index."; "index"; ".index";
     ".index.md"; "dir.d/Report.PDF"; "a/.."]
  = [".html"; ".md"; "."; ""; ""; ".md"; ".PDF"; ""].
Proof. vm_compute. reflexivity. Qed.

Example config_examples :
  uploadLimitMb (node []) = Finite 25
  ∧ documentTtlMinutes (node []) = Finite 30
  ∧ uploadLimitMb (node [("UPLOAD_LIMIT_MB", "50")]) = Finite 50
  ∧ uploadLimitMb (node [("UPLOAD_LIMIT_MB", "")]) = Finite 25
  ∧ uploadLimitMb (node [("UPLOAD_LIMIT_MB", "0")]) = Finite 25
  ∧ uploadLimitMb (node [("UPLOAD_LIMIT_MB", "-5")]) = Finite 25
  ∧ uploadLimitMb (node [("UPLOAD_LIMIT_MB", "ten")]) = Finite 25
  ∧ uploadLimitMb (node [("UPLOAD_LIMIT_MB", "Infinity")]) = Finite 25
  ∧ documentTtlMs (node []) = Finite 1800000.
Proof. vm_compute. repeat split; reflexivity. Qed.

(** An accepted upload: the answer, the entry, the timer and the file. *)
Example upload_example :
  (postUpload (node []) 1700000000000 "7f3c" "" None [reportPdf] initial).1
  = Created "7f3c" "Report.PDF" 10 1700001800000
  ∧ documents afterUpload !! "7f3c" = Some reportEntry
  ∧ timers afterUpload !! 0 = Some ("7f3c", reportPath)
  ∧ reportPath ∈ disk afterUpload
  ∧ trace afterUpload = [SetTimeout 0; MapSet "7f3c"].
Proof. vm_compute. repeat split; reflexivity. Qed.

(** Upload, then DELETE twice: 204, then 404. *)
Example delete_twice_example :
  status_of (deleteDocument None "7f3c" afterUpload).1 = 204
  ∧ status_of
      (deleteDocument None "7f3c" (deleteDocument None "7f3c" afterUpload).2).1
    = 404.
Proof. vm_compute. split; reflexivity. Qed.

(** A file of another type is answered 400 and leaves nothing on disk. *)
Example wrong_type_example :
  postUpload (node []) 1700000000000 "7f3c" "" None
    [FilePart "file" "notes.txt" "text/plain" 10] initial
  = (Json 400 (Text "Only PDF files are supported."), initial).
Proof. vm_compute. reflexivity. Qed.

(** Upload, retrieval, expiry, retrieval: 200, then 404 with the file
    gone. *)
Example expiry_example :
  (getDocument None "7f3c" afterUpload).1
  = FileSent reportPath "application/pdf" 10 "Report.PDF"
  ∧ (getDocument None "7f3c" (fireTimeout 0 None afterUpload)).1
    = Json 404 (Text "Document not found or has expired.")
  ∧ disk (fireTimeout 0 None afterUpload) = ∅.
Proof. vm_compute. repeat split; reflexivity. Qed.

(** ** Rounding to a double *)





















(** The model's doubles on examples: 0.1, a tie, the largest double, the
    smallest, and the first two whole numbers that are not doubles. *)
Example round64_examples :
  round64 (1 # 10) = Finite (3602879701896397 # 36028797018963968)
  ∧ round64 (inject_Z (2 ^ 53 + 1)) = Finite (inject_Z (2 ^ 53))
  ∧ round64 (inject_Z (2 ^ 53 + 3)) = Finite (inject_Z (2 ^ 53 + 4))
  ∧ round64 (inject_Z (2 ^ 1024 - 2 ^ 970 - 1))
    = Finite (inject_Z (2 ^ 1024 - 2 ^ 971))
  ∧ round64 (inject_Z (2 ^ 1024 - 2 ^ 970)) = Infinity false
  ∧ round64 (1 # 2 ^ 1075) = Finite 0
  ∧ round64 (3 # 2 ^ 1075) = Finite (1 # 2 ^ 1073)
  ∧ round64 (- (3 # 2 ^ 1075)) = Finite (- (1 # 2 ^ 1073)).
Proof. vm_compute. repeat split; reflexivity. Qed.

(** ** Configuration *)

Lemma gt_zero_Finite (q : Q) : gt_zero (Finite q) = true ↔ (0 < q)%Q.
Proof.
  simpl. rewrite negb_true_iff. split.
  - intros H. apply Qnot_le_lt. intros Hle%Qle_bool_iff. congruence.
  - intros H. apply not_true_is_false. intros Hle%Qle_bool_iff.
    exact (Qlt_not_le _ _ H Hle).
Qed.

Lemma guard_fallback (rt : runtime) (name : string) (d : Q) :
  (if isFinite (envNumber rt name d) && gt_zero (envNumber rt name d)
   then envNumber rt name d else Finite d)
  = fallback_spec (Number rt <$> process_env rt name) d.
Proof.
  unfold envNumber. destruct (process_env rt name) as [s|]; simpl.
  - destruct (Number rt s) as [| [] | q]; simpl; try done.
    destruct (Qlt_le_dec 0 q) as [Hpos | Hle].
    + apply gt_zero_Finite in Hpos. simpl in Hpos. by rewrite Hpos.
    + destruct (negb (Qle_bool q 0)) eqn:Hg; [| done].
      apply (proj1 (gt_zero_Finite q)) in Hg.
      by destruct (Qlt_not_le _ _ Hg Hle).
  - by destruct (negb (Qle_bool d 0)).
Qed.

(** C8. [uploadLimitMb] and [documentTtlMinutes] are the defaults 25 and 30
    when their variable is unset, or when [Number] makes of it a NaN, an
    infinity, zero or a negative number; a finite, strictly positive value
    is the only one that replaces the default. *)
Theorem config_fallback (rt : runtime) :
  uploadLimitMb rt
    = fallback_spec (Number rt <$> process_env rt "UPLOAD_LIMIT_MB") 25
  ∧ documentTtlMinutes rt
    = fallback_spec (Number rt <$> process_env rt "DOCUMENT_TTL_MINUTES") 30.
Proof.
  split.
  - exact (guard_fallback rt "UPLOAD_LIMIT_MB" 25).
  - exact (guard_fallback rt "DOCUMENT_TTL_MINUTES" 30).
Qed.

(** ** Explicit release *)

Lemma errno_code_not_ENOENT (err : errno) : errno_code err ≠ "ENOENT".
Proof. by destruct err. Qed.

(** [removeDocument] on an id with no entry. *)
Lemma removeDocument_absent (fault : option errno) (id : string) (st : state) :
  documents st !! id = None → removeDocument fault id st = (Return false, st).
Proof. intros H. unfold removeDocument. by rewrite H. Qed.

(** [removeDocument] on a live entry whose file the system refuses to
    delete. *)
Lemma removeDocument_refused (err : errno) (id : string) (e : entry)
    (st : state) :
  documents st !! id = Some e →
  entry_path e ∈ disk st →
  removeDocument (Some err) id st
  = (Throw (errno_code err),
     {| documents := delete id (documents st);
        timers := delete (entry_timeout e) (timers st);
        nextTimer := nextTimer st;
        disk := disk st;
        trace := trace st ++
                 [ClearTimeout (entry_timeout e); MapDelete id;
                  Unlink (entry_path e) (Some (errno_code err));
                  ConsoleError ("Failed to delete document " +:+ id)
                    (errno_code err)] |}).
Proof.
  intros Hentry Hfile. unfold removeDocument. rewrite Hentry.
  unfold unlink; simpl. rewrite decide_True by done.
  rewrite decide_False by apply errno_code_not_ENOENT.
  unfold console_error, emit; simpl. by rewrite <- !app_assoc.
Qed.

(** [removeDocument] on a live entry whose file is deleted. *)
Lemma removeDocument_deleted (id : string) (e : entry) (st : state) :
  documents st !! id = Some e →
  entry_path e ∈ disk st →
  removeDocument None id st
  = (Return true,
     {| documents := delete id (documents st);
        timers := delete (entry_timeout e) (timers st);
        nextTimer := nextTimer st;
        disk := disk st ∖ {[entry_path e]};
        trace := trace st ++
                 [ClearTimeout (entry_timeout e); MapDelete id;
                  Unlink (entry_path e) None] |}).
Proof.
  intros Hentry Hfile. unfold removeDocument. rewrite Hentry.
  unfold unlink; simpl. rewrite decide_True by done.
  unfold emit; simpl. by rewrite <- !app_assoc.
Qed.

(** [removeDocument] on a live entry whose file is not there. *)
Lemma removeDocument_missing (fault : option errno) (id : string) (e : entry)
    (st : state) :
  documents st !! id = Some e →
  entry_path e ∉ disk st →
  removeDocument fault id st
  = (Return true,
     {| documents := delete id (documents st);
        timers := delete (entry_timeout e) (timers st);
        nextTimer := nextTimer st;
        disk := disk st;
        trace := trace st ++
                 [ClearTimeout (entry_timeout e); MapDelete id;
                  Unlink (entry_path e) (Some "ENOENT")] |}).
Proof.
  intros Hentry Hfile. unfold removeDocument. rewrite Hentry.
  unfold unlink; simpl. rewrite decide_False by done.
  unfold emit; simpl. by rewrite <- !app_assoc.
Qed.

(** C1, as the code has it.  When an explicit release finds an entry and
    the deletion of the backing file is refused (it fails, and not because
    the file is absent), the failure is surfaced once: [removeDocument]
    logs one error and throws, and the route answers 500.  The entry has
    been removed and its timer cleared before the deletion was tried, and
    neither is put back; the file stays on disk; a retry finds no entry
    and is answered 404. *)
Theorem release_failure_surfaced_once (err : errno) (id : string) (e : entry)
    (st : state) :
  documents st !! id = Some e →
  entry_path e ∈ disk st →
  let st' := (deleteDocument (Some err) id st).2 in
  (removeDocument (Some err) id st).1 = Throw (errno_code err)
  ∧ (deleteDocument (Some err) id st).1
    = Json 500 (Text "Unable to delete document.")
  ∧ trace st'
    = (trace st ++
       [ClearTimeout (entry_timeout e); MapDelete id;
        Unlink (entry_path e) (Some (errno_code err));
        ConsoleError ("Failed to delete document " +:+ id)
          (errno_code err)])%list
  ∧ documents st' = delete id (documents st)
  ∧ timers st' = delete (entry_timeout e) (timers st)
  ∧ disk st' = disk st
  ∧ ∀ fault,
      deleteDocument fault id st'
      = (Json 404 (Text "Document not found or already removed."), st').
Proof.
  intros Hentry Hfile. unfold deleteDocument.
  rewrite (removeDocument_refused err id e st Hentry Hfile). simpl.
  split_and!; try done.
  intros fault. rewrite removeDocument_absent; [done |].
  simpl. apply lookup_delete_eq.
Qed.

Lemma release_failure_surfaced_once_witness :
  documents afterUpload !! "7f3c" = Some reportEntry
  ∧ reportPath ∈ disk afterUpload
  ∧ (deleteDocument (Some EACCES) "7f3c" afterUpload).1
    = Json 500 (Text "Unable to delete document.")
  ∧ (deleteDocument None "7f3c"
       (deleteDocument (Some EACCES) "7f3c" afterUpload).2).1
    = Json 404 (Text "Document not found or already removed.").
Proof.
  assert (H1 : documents afterUpload !! "7f3c" = Some reportEntry)
    by (vm_compute; reflexivity).
  assert (H2 : entry_path reportEntry ∈ disk afterUpload)
    by (vm_compute; reflexivity).
  split; [exact H1 |]. split; [exact H2 |].
  destruct (release_failure_surfaced_once EACCES "7f3c" reportEntry
              afterUpload H1 H2) as (_ & Hresp & _ & _ & _ & _ & Hretry).
  split; [exact Hresp |].
  rewrite (Hretry None). reflexivity.
Defined.

(** C1 as stated fails: after a refused deletion the registry no longer
    holds the entry, and the retry does not find it. *)
Lemma release_failure_registry_changed :
  documents afterUpload !! "7f3c" = Some reportEntry
  ∧ reportPath ∈ disk afterUpload
  ∧ (deleteDocument (Some EACCES) "7f3c" afterUpload).1
    = Json 500 (Text "Unable to delete document.")
  ∧ documents (deleteDocument (Some EACCES) "7f3c" afterUpload).2
    ≠ documents afterUpload
  ∧ documents (deleteDocument (Some EACCES) "7f3c" afterUpload).2 !! "7f3c"
    = None
  ∧ (deleteDocument None "7f3c"
       (deleteDocument (Some EACCES) "7f3c" afterUpload).2).1
    = Json 404 (Text "Document not found or already removed.").
Proof.
  assert (Hgone :
    documents (deleteDocument (Some EACCES) "7f3c" afterUpload).2 !! "7f3c"
    = None) by (vm_compute; reflexivity).
  split; [vm_compute; reflexivity |].
  split; [vm_compute; reflexivity |].
  split; [vm_compute; reflexivity |].
  split; [| split; [exact Hgone | vm_compute; reflexivity]].
  intros Heq. rewrite Heq in Hgone. vm_compute in Hgone. discriminate Hgone.
Qed.

(** C10. An explicit release of a live entry whose backing file is already
    absent succeeds: the entry is removed, the ENOENT of the deletion is
    not reported (nothing is logged, nothing is thrown), [removeDocument]
    returns true and the route answers 204. *)
Theorem release_file_absent_succeeds (fault : option errno) (id : string)
    (e : entry) (st : state) :
  documents st !! id = Some e →
  entry_path e ∉ disk st →
  let st' := (deleteDocument fault id st).2 in
  (removeDocument fault id st).1 = Return true
  ∧ (deleteDocument fault id st).1 = NoContent
  ∧ status_of (deleteDocument fault id st).1 = 204
  ∧ documents st' = delete id (documents st)
  ∧ documents st' !! id = None
  ∧ trace st'
    = (trace st ++
       [ClearTimeout (entry_timeout e); MapDelete id;
        Unlink (entry_path e) (Some "ENOENT")])%list.
Proof.
  intros Hentry Hfile. unfold deleteDocument.
  rewrite (removeDocument_missing fault id e st Hentry Hfile). simpl.
  split_and!; try done. apply lookup_delete_eq.
Qed.

Lemma release_file_absent_succeeds_witness :
  documents afterUploadFileGone !! "7f3c" = Some reportEntry
  ∧ (reportPath ∉ disk afterUploadFileGone)
  ∧ (removeDocument (Some EPERM) "7f3c" afterUploadFileGone).1 = Return true
  ∧ status_of (deleteDocument (Some EPERM) "7f3c" afterUploadFileGone).1 = 204.
Proof.
  assert (H1 : documents afterUploadFileGone !! "7f3c" = Some reportEntry)
    by (vm_compute; reflexivity).
  assert (H2 : entry_path reportEntry ∉ disk afterUploadFileGone).
  { apply (bool_decide_unpack _). vm_compute. exact I. }
  split; [exact H1 |]. split; [exact H2 |].
  destruct (release_file_absent_succeeds (Some EPERM) "7f3c" reportEntry
              afterUploadFileGone H1 H2) as (Hret & _ & Hstatus & _).
  split; [exact Hret | exact Hstatus].
Defined.

(** ** Release, retrieval and eviction after a release *)

(** The timeout callback run in a state where its id has no entry and its
    file is not on disk: nothing is deleted and nothing is logged. *)
Lemma evict_nothing_left (fault : option errno) (id p : string) (st : state) :
  documents st !! id = None →
  p ∉ disk st →
  evict (id, p) fault st
  = {| documents := documents st; timers := timers st;
       nextTimer := nextTimer st; disk := disk st;
       trace := trace st ++ [MapDelete id; Unlink p (Some "ENOENT")] |}.
Proof.
  intros Hentry Hfile. unfold evict, unlink; simpl.
  rewrite decide_False by done. simpl.
  unfold emit; simpl. rewrite delete_id by done. by rewrite <- app_assoc.
Qed.

(** C6, as the code has it.  The first [removeDocument] on a live entry
    removes it and clears its timer (in a well-formed state, the pending
    timer of that very entry); it returns true when the file is deleted
    or was already absent, and throws when the deletion is refused.
    Every later call returns false, changes nothing and throws nothing.
    After the release, retrieval answers 404; the entry's timer, being
    cleared, does not fire; and after a release that returned true the
    timeout callback, were it run, would delete nothing and log nothing. *)
Theorem release_idempotent (fault : option errno) (id : string) (e : entry)
    (st : state) :
  documents st !! id = Some e →
  let r := (removeDocument fault id st).1 in
  let st1 := (removeDocument fault id st).2 in
  documents st1 !! id = None
  ∧ (well_formed st → timers st !! entry_timeout e = Some (id, entry_path e))
  ∧ timers st1 !! entry_timeout e = None
  ∧ (fault = None ∨ entry_path e ∉ disk st → r = Return true)
  ∧ (∀ err, fault = Some err → entry_path e ∈ disk st →
       r = Throw (errno_code err))
  ∧ (∀ fault', removeDocument fault' id st1 = (Return false, st1))
  ∧ (∀ io, getDocument io id st1
           = (Json 404 (Text "Document not found or has expired."), st1))
  ∧ (∀ fault', fireTimeout (entry_timeout e) fault' st1 = st1)
  ∧ (r = Return true →
     ∀ fault',
       let st2 := evict (id, entry_path e) fault' st1 in
       documents st2 = documents st1 ∧ disk st2 = disk st1
       ∧ timers st2 = timers st1
       ∧ trace st2
         = (trace st1 ++
            [MapDelete id; Unlink (entry_path e) (Some "ENOENT")])%list).
Proof.
  intros Hentry r st1.
  assert (Hgone : documents st1 !! id = None
                  ∧ timers st1 !! entry_timeout e = None
                  ∧ (r = Return true → entry_path e ∉ disk st1)
                  ∧ (fault = None ∨ entry_path e ∉ disk st → r = Return true)
                  ∧ (∀ err, fault = Some err → entry_path e ∈ disk st →
                       r = Throw (errno_code err))).
  { subst r st1. destruct (decide (entry_path e ∈ disk st)) as [Hin | Hout].
    - destruct fault as [err |].
      + rewrite (removeDocument_refused err id e st Hentry Hin); simpl.
        split_and!; try done; try apply lookup_delete_eq.
        * intros [? | ?]; done.
        * by intros err' [= ->] _.
      + rewrite (removeDocument_deleted id e st Hentry Hin); simpl.
        split_and!; try done; try apply lookup_delete_eq.
        intros _. apply not_elem_of_difference. right.
        by apply elem_of_singleton.
    - rewrite (removeDocument_missing fault id e st Hentry Hout); simpl.
      split_and!; try done; apply lookup_delete_eq. }
  destruct Hgone as (Hdoc & Htimer & Hdisk & Htrue & Hthrow).
  split_and!; try done.
  - intros [_ Hown]. by apply Hown.
  - intros fault'. by apply removeDocument_absent.
  - intros io. unfold getDocument. by rewrite Hdoc.
  - intros fault'. unfold fireTimeout. by rewrite Htimer.
  - intros Hr fault'.
    rewrite (evict_nothing_left fault' id (entry_path e) st1 Hdoc (Hdisk Hr)).
    done.
Qed.

Lemma release_idempotent_witness :
  documents afterUpload !! "7f3c" = Some reportEntry
  ∧ (removeDocument None "7f3c" afterUpload).1 = Return true
  ∧ (removeDocument None "7f3c" (removeDocument None "7f3c" afterUpload).2).1
    = Return false
  ∧ (getDocument None "7f3c" (removeDocument None "7f3c" afterUpload).2).1
    = Json 404 (Text "Document not found or has expired.")
  ∧ fireTimeout 0 None (removeDocument None "7f3c" afterUpload).2
    = (removeDocument None "7f3c" afterUpload).2.
Proof.
  assert (H1 : documents afterUpload !! "7f3c" = Some reportEntry)
    by (vm_compute; reflexivity).
  split; [exact H1 |].
  destruct (release_idempotent None "7f3c" reportEntry afterUpload H1)
    as (_ & _ & _ & Htrue & _ & Hagain & Hfetch & Hfire & _).
  split; [apply Htrue; by left |].
  split; [rewrite (Hagain None); reflexivity |].
  split; [rewrite (Hfetch None); reflexivity |].
  exact (Hfire None).
Defined.

(** C6 as stated fails: the first release of a live entry does not return
    true when the deletion of its file is refused. *)
Lemma release_refused_throws :
  documents afterUpload !! "7f3c" = Some reportEntry
  ∧ (removeDocument (Some EACCES) "7f3c" afterUpload).1 = Throw "EACCES"
  ∧ (removeDocument (Some EACCES) "7f3c" afterUpload).1 ≠ Return true.
Proof.
  split; [vm_compute; reflexivity |].
  assert (H : (removeDocument (Some EACCES) "7f3c" afterUpload).1
              = Throw "EACCES") by (vm_compute; reflexivity).
  split; [exact H |]. rewrite H. intros Hne. discriminate Hne.
Qed.

(** ** Retrieval *)

(** C4. When the entry of an id exists and its backing file is absent,
    GET /api/documents/:id answers 404 and removes the entry, so that a
    later lookup of the id finds nothing and is answered 404 as well. *)
Theorem fetch_missing_file_self_heals (io : option (string * bool))
    (id : string) (e : entry) (st : state) :
  documents st !! id = Some e →
  entry_path e ∉ disk st →
  let st' := (getDocument io id st).2 in
  (getDocument io id st).1
  = Json 404 (Text "Document not found or has expired.")
  ∧ status_of (getDocument io id st).1 = 404
  ∧ documents st' = delete id (documents st)
  ∧ documents st' !! id = None
  ∧ ∀ io', getDocument io' id st'
           = (Json 404 (Text "Document not found or has expired."), st').
Proof.
  intros Hentry Hfile. unfold getDocument at 1 2 3. rewrite Hentry.
  unfold sendFile. rewrite decide_False by done. simpl.
  assert (Hgone : delete id (documents st) !! id = None)
    by apply lookup_delete_eq.
  split_and!; try done.
  intros io'. unfold getDocument. simpl. by rewrite Hgone.
Qed.

Lemma fetch_missing_file_self_heals_witness :
  documents afterUploadFileGone !! "7f3c" = Some reportEntry
  ∧ (reportPath ∉ disk afterUploadFileGone)
  ∧ status_of (getDocument None "7f3c" afterUploadFileGone).1 = 404
  ∧ documents (getDocument None "7f3c" afterUploadFileGone).2 !! "7f3c" = None.
Proof.
  assert (H1 : documents afterUploadFileGone !! "7f3c" = Some reportEntry)
    by (vm_compute; reflexivity).
  assert (H2 : entry_path reportEntry ∉ disk afterUploadFileGone).
  { apply (bool_decide_unpack _). vm_compute. exact I. }
  split; [exact H1 |]. split; [exact H2 |].
  destruct (fetch_missing_file_self_heals None "7f3c" reportEntry
              afterUploadFileGone H1 H2) as (_ & Hstatus & _ & Hgone & _).
  split; [exact Hstatus | exact Hgone].
Defined.

(** ** Natural eviction *)

(** C5. When a pending timer fires for [id] and [p], the entry of [id] is
    removed first and the file is deleted next; whatever the deletion
    gives, the registry afterwards is the old one without [id].  A file
    that is already absent is not reported; a refused deletion is logged,
    and the entry is not put back. *)
Theorem eviction_removes_entry_first (h : nat) (fault : option errno)
    (id p : string) (st : state) :
  timers st !! h = Some (id, p) →
  let st' := fireTimeout h fault st in
  documents st' = delete id (documents st)
  ∧ documents st' !! id = None
  ∧ timers st' = delete h (timers st)
  ∧ (p ∉ disk st →
     disk st' = disk st
     ∧ trace st'
       = (trace st ++ [MapDelete id; Unlink p (Some "ENOENT")])%list)
  ∧ (p ∈ disk st → fault = None →
     disk st' = disk st ∖ {[p]}
     ∧ trace st' = (trace st ++ [MapDelete id; Unlink p None])%list)
  ∧ (∀ err, p ∈ disk st → fault = Some err →
     disk st' = disk st
     ∧ trace st'
       = (trace st ++
          [MapDelete id; Unlink p (Some (errno_code err));
           ConsoleError ("Failed to remove expired document " +:+ id)
             (errno_code err)])%list).
Proof.
  intros Hpending. unfold fireTimeout. rewrite Hpending.
  unfold evict, unlink; simpl.
  destruct (decide (p ∈ disk st)) as [Hin | Hout].
  - destruct fault as [err |]; simpl.
    + rewrite decide_False by apply errno_code_not_ENOENT. simpl.
      split_and!; try done; try apply lookup_delete_eq.
      intros err' _ [= <-]. by rewrite <- !app_assoc.
    + split_and!; try done; try apply lookup_delete_eq.
      intros _ _. by rewrite <- !app_assoc.
  - simpl. split_and!; try done; try apply lookup_delete_eq.
    intros _. by rewrite <- !app_assoc.
Qed.

Lemma eviction_removes_entry_first_witness :
  timers afterUpload !! 0 = Some ("7f3c", reportPath)
  ∧ documents (fireTimeout 0 (Some EBUSY) afterUpload) !! "7f3c" = None
  ∧ documents (fireTimeout 0 None afterUpload) !! "7f3c" = None.
Proof.
  assert (H1 : timers afterUpload !! 0 = Some ("7f3c", reportPath))
    by (vm_compute; reflexivity).
  split; [exact H1 |]. split.
  - exact (proj1 (proj2 (eviction_removes_entry_first 0 (Some EBUSY)
                           "7f3c" reportPath afterUpload H1))).
  - exact (proj1 (proj2 (eviction_removes_entry_first 0 None
                           "7f3c" reportPath afterUpload H1))).
Defined.

(** ** Registration *)

(** C2, as the code has it.  [registerDocument] has no failing result.
    Whether or not [id] has a live entry, it stores the entry of the new
    document under [id], in place of any entry that was there; the
    entries of the other ids are untouched, and no pending timer is
    cleared: the timer of a replaced entry stays pending. *)
Theorem register_replaces (rt : runtime) (now : Z) (id : string) (f : file)
    (st : state) :
  let expiresAt := (registerDocument rt now id f st).1 in
  let st' := (registerDocument rt now id f st).2 in
  documents st' !! id
  = Some {| entry_path := file_path f;
            entry_originalName := file_originalname f;
            entry_size := file_size f;
            entry_mimeType := file_mimetype f;
            entry_expiresAt := expiresAt;
            entry_timeout := nextTimer st |}
  ∧ (∀ id', id' ≠ id → documents st' !! id' = documents st !! id')
  ∧ timers st' !! nextTimer st = Some (id, file_path f)
  ∧ (∀ h, h ≠ nextTimer st → timers st' !! h = timers st !! h)
  ∧ (handles_fresh st →
     ∀ h closure, timers st !! h = Some closure →
                  timers st' !! h = Some closure).
Proof.
  unfold registerDocument; simpl. split_and!.
  - apply lookup_insert_eq.
  - intros id' Hne. by apply lookup_insert_ne.
  - apply lookup_insert_eq.
  - intros h Hne. by apply lookup_insert_ne.
  - intros Hfresh h closure Hh.
    rewrite lookup_insert_ne; [done |].
    intros <-. assert (nextTimer st < nextTimer st); [| lia].
    apply Hfresh. by exists closure.
Qed.

(** C2 as stated fails: registering under an id that has a live entry
    returns normally and replaces the entry. *)
Lemma register_duplicate_replaces :
  documents afterUpload !! "7f3c" = Some reportEntry
  ∧ (registerDocument (node []) 1700000060000 "7f3c" otherFile afterUpload).1
    = Some 1700001860000%Z
  ∧ documents
      (registerDocument (node []) 1700000060000 "7f3c" otherFile afterUpload).2
    !! "7f3c" = Some otherEntry
  ∧ otherEntry ≠ reportEntry.
Proof.
  split; [vm_compute; reflexivity |].
  split; [vm_compute; reflexivity |].
  split; [vm_compute; reflexivity |].
  intros Heq. discriminate Heq.
Qed.

(** ** Extensions hold no separator *)

Lemma scan_invariant_result (l : list ascii) (i : Z) (s : extScan) :
  (-1 ≤ i)%Z → scan_invariant l i s → scan_result_ok l s.
Proof.
  intros Hi [[Hend _] | (Hlt & _ & Hdot & Hsep)].
  - right. by left.
  - destruct Hdot as [Hdot | Hdot]; [by left |].
    right. right. split; [lia |]. intros k Hk. apply Hsep. lia.
Qed.

Lemma extnameScan_result (l : list ascii) (r suf : list ascii) (i : Z)
    (s : extScan) :
  l = (rev r ++ suf)%list →
  i = (Z.of_nat (length r) - 1)%Z →
  scan_invariant l i s →
  scan_result_ok l (extnameScan r i s).
Proof.
  revert suf i s. induction r as [| c r IH]; intros suf i s Hl Hi Hinv.
  - simpl. apply (scan_invariant_result l i); [simpl in Hi; lia | done].
  - assert (Hc : l !! length r = Some c).
    { rewrite Hl. simpl. rewrite <- app_assoc.
      rewrite lookup_app_r by (rewrite length_rev; lia).
      by rewrite length_rev, Nat.sub_diag. }
    assert (Hi' : i = Z.of_nat (length r)) by (simpl in Hi; lia).
    assert (Hl' : l = (rev r ++ c :: suf)%list)
      by (rewrite Hl; simpl; by rewrite <- app_assoc).
    simpl. destruct (Ascii.eqb c "/") eqn:Hslash.
    + destruct (matchedSlash s) eqn:Hmatched; simpl.
      * apply (IH (c :: suf)); [done | lia |].
        destruct Hinv as [Hnone | (_ & Hfalse & _)]; [by left |].
        congruence.
      * apply (scan_invariant_result l i) in Hinv; [| lia].
        exact Hinv.
    + apply Ascii.eqb_neq in Hslash.
      apply (IH (c :: suf)); [done | lia |].
      right.
      assert (Hhere : ∀ k : nat, Z.of_nat k = i → l !! k ≠ Some "/"%char).
      { intros k Hk. assert (k = length r) as -> by lia.
        rewrite Hc. by intros [= ->]. }
      destruct (scanEnd s =? -1)%Z eqn:Hend.
      * apply Z.eqb_eq in Hend.
        destruct Hinv as [[_ Hdot] | (Hlt & _)]; [| lia].
        destruct (Ascii.eqb c "."); simpl; rewrite ?Hdot; simpl.
        -- split_and!; [lia | done | right; lia |].
           intros k Hk. apply Hhere. lia.
        -- split_and!; [lia | done | by left |].
           intros k Hk. apply Hhere. lia.
      * apply Z.eqb_neq in Hend.
        destruct Hinv as [[Hnone _] | (Hlt & Hfalse & Hdot & Hsep)];
          [done |].
        assert (Hsep' : ∀ k : nat, (i - 1 < Z.of_nat k < scanEnd s)%Z →
                                   l !! k ≠ Some "/"%char).
        { intros k Hk. destruct (decide (Z.of_nat k = i)) as [Heq | Hne].
          - by apply Hhere.
          - apply Hsep. lia. }
        destruct (Ascii.eqb c ".").
        -- destruct (startDot s =? -1)%Z eqn:Hd; simpl.
           ++ split_and!; [lia | done | right; lia | done].
           ++ apply Z.eqb_neq in Hd.
              split_and!; [lia | done | right; lia | done].
        -- destruct (startDot s =? -1)%Z eqn:Hd; simpl.
           ++ apply Z.eqb_eq in Hd.
              split_and!; [lia | done | by left | done].
           ++ apply Z.eqb_neq in Hd.
              split_and!; [lia | done | right; lia | done].
Qed.

Lemma chars_substring (a m : nat) (s : string) :
  chars (String.substring a m s) = take m (drop a (chars s)).
Proof.
  revert a m. induction s as [| c s IH]; intros a m; simpl.
  - destruct a, m; simpl; by rewrite ?take_nil.
  - destruct a as [| a]; simpl.
    + destruct m as [| m]; simpl; [done |]. f_equal. apply (IH 0).
    + apply IH.
Qed.

Lemma chars_length (s : string) : length (chars s) = String.length s.
Proof. induction s as [| c s IH]; simpl; [done | by f_equal]. Qed.

(** [path.extname] on POSIX never returns a separator. *)
Lemma posixExtname_no_separator (p : string) :
  "/"%char ∉ chars (posixExtname p).
Proof.
  unfold posixExtname.
  set (s := extnameScan _ _ _).
  assert (Hok : scan_result_ok (chars p) s).
  { apply (extnameScan_result (chars p) (rev (chars p)) []).
    - by rewrite rev_involutive, app_nil_r.
    - by rewrite length_rev, chars_length.
    - by left. }
  destruct ((startDot s =? -1)%Z || (scanEnd s =? -1)%Z
            || (preDotState s =? 0)%Z
            || ((preDotState s =? 1)%Z && (startDot s =? scanEnd s - 1)%Z
                && (startDot s =? startPart s + 1)%Z)) eqn:Hcond.
  - apply not_elem_of_nil.
  - apply orb_false_iff in Hcond as [Hcond _].
    apply orb_false_iff in Hcond as [Hcond _].
    apply orb_false_iff in Hcond as [Hdot Hend].
    apply Z.eqb_neq in Hdot, Hend.
    destruct Hok as [Hok | [Hok | [Hrange Hsep]]]; [done | done |].
    rewrite chars_substring. intros Hin.
    apply elem_of_take in Hin as (k & Hk & Hlt).
    rewrite lookup_drop in Hk.
    apply (Hsep (Z.to_nat (startDot s) + k)); [lia | done].
Qed.

Lemma asciiLower_separator (c : ascii) :
  asciiLower c = "/"%char → c = "/"%char.
Proof.
  unfold asciiLower.
  destruct ((65 <=? N_of_ascii c)%N && (N_of_ascii c <=? 90)%N) eqn:Hup;
    [| done].
  apply andb_true_iff in Hup as [Hlo Hhi].
  apply N.leb_le in Hlo, Hhi. intros Heq.
  apply (f_equal N_of_ascii) in Heq.
  rewrite N_ascii_embedding in Heq by lia. simpl in Heq. lia.
Qed.

Lemma asciiToLowerCase_no_separator (s : string) :
  "/"%char ∉ chars s → "/"%char ∉ chars (asciiToLowerCase s).
Proof.
  induction s as [| c s IH]; simpl; [done |].
  intros Hnot Hin. apply elem_of_cons in Hin as [Heq | Hin].
  - apply Hnot, elem_of_cons. left. symmetry. by apply asciiLower_separator.
  - apply IH; [| done]. intros Hs. apply Hnot, elem_of_cons. by right.
Qed.

Lemma chars_append (a b : string) : chars (a +:+ b) = (chars a ++ chars b)%list.
Proof. induction a as [| c a IH]; simpl; [done | by f_equal]. Qed.

(** The extension the [filename] callback chooses holds no separator
    when [path.extname] returns none and lower-casing introduces none. *)
Lemma storageExt_no_separator (rt : runtime) (originalname : string) :
  (∀ name, "/"%char ∉ chars (extname rt name)) →
  (∀ s, "/"%char ∉ chars s → "/"%char ∉ chars (toLowerCase rt s)) →
  "/"%char ∉ chars (storageExt rt originalname).
Proof.
  intros Hext Hlow. unfold storageExt, or_else.
  pose proof (Hlow _ (Hext originalname)) as Hnone.
  destruct (toLowerCase rt (extname rt originalname)); [| done].
  intros Hin. repeat (apply elem_of_cons in Hin as [Heq | Hin];
                      [discriminate Heq |]).
  by apply elem_of_nil in Hin.
Qed.

(** So it is on a POSIX host: the stored name holds a separator only if
    the identifier does. *)
Lemma node_filename_no_separator (env : list (string * string))
    (id originalname : string) :
  "/"%char ∉ chars id →
  "/"%char ∉ chars (filename (node env) id originalname).
Proof.
  intros Hid. unfold filename. rewrite chars_append.
  apply not_elem_of_app. split; [done |].
  apply storageExt_no_separator.
  - exact posixExtname_no_separator.
  - exact asciiToLowerCase_no_separator.
Qed.

(** ** Upload *)

Lemma errno_code_not_filter (err : errno) :
  errno_code err ≠ "Only PDF files are supported.".
Proof. by destruct err. Qed.

(** What [upload_single] gives once a file has been stored: the handler
    is called with it, or a later part is refused with a 400 and the
    stored file removed. *)
Lemma upload_single_stored (rt : runtime) (uuid : string)
    (fault : option errno) (body : list part) (f0 : file) (st : state) :
  upload_single rt uuid fault body (Some f0) st
  = (Accepted (Some f0) (Some uuid), st)
  ∨ ∃ code msg,
      upload_single rt uuid fault body (Some f0) st
      = (Rejected (MulterError code msg), removeFile (file_path f0) st)
      ∧ code ≠ "LIMIT_FILE_SIZE" ∧ msg ≠ "".
Proof.
  induction body
    as [| [name value | fieldname originalname mimetype size] body IH];
    cbn [upload_single].
  - by left.
  - destruct (fieldSize <=? Z.of_nat (String.length value))%Z; [| exact IH].
    right. by eexists _, _.
  - destruct (decide (originalname = "")); [exact IH |].
    right. by eexists _, _.
Qed.

(** [upload_single] touches the disk only. *)
Lemma upload_single_state (rt : runtime) (uuid : string)
    (fault : option errno) (body : list part) (stored : option file)
    (st : state) :
  documents (upload_single rt uuid fault body stored st).2 = documents st
  ∧ timers (upload_single rt uuid fault body stored st).2 = timers st
  ∧ nextTimer (upload_single rt uuid fault body stored st).2 = nextTimer st
  ∧ trace (upload_single rt uuid fault body stored st).2 = trace st.
Proof.
  revert stored st.
  induction body
    as [| [name value | fieldname originalname mimetype size] body IH];
    intros stored st; cbn [upload_single]; [done | |].
  - destruct (fieldSize <=? Z.of_nat (String.length value))%Z; [| apply IH].
    by destruct stored.
  - destruct (decide (originalname = "")); [apply IH |].
    destruct stored as [f0 |]; [done |].
    destruct (decide (fieldname = "file")); [| done].
    destruct (fileFilter mimetype); [done |].
    destruct fault as [err |]; [by destruct (afterOpen err) |].
    destruct (received size (uploadLimitBytes rt)) as [written |]; [| done].
    apply (IH _ (writeFile _ st)).
Qed.

(** A body without a file under the field name "file": multer stores
    nothing, and either calls the handler without [req.file] or refuses a
    part with an error of its own. *)
Lemma upload_single_no_file (rt : runtime) (uuid : string)
    (fault : option errno) (body : list part) (st : state) :
  (∀ originalname mimetype size,
     FilePart "file" originalname mimetype size ∉ body) →
  upload_single rt uuid fault body None st = (Accepted None None, st)
  ∨ ∃ code msg,
      upload_single rt uuid fault body None st
      = (Rejected (MulterError code msg), st)
      ∧ code ≠ "LIMIT_FILE_SIZE" ∧ msg ≠ "".
Proof.
  induction body
    as [| [name value | fieldname originalname mimetype size] body IH];
    intros Hnone; cbn [upload_single].
  - by left.
  - destruct (fieldSize <=? Z.of_nat (String.length value))%Z.
    + right. by eexists _, _.
    + apply IH. intros o m z Hin. apply (Hnone o m z). by right.
  - destruct (decide (originalname = "")).
    + apply IH. intros o m z Hin. apply (Hnone o m z). by right.
    + destruct (decide (fieldname = "file")) as [-> | Hne].
      * destruct (Hnone originalname mimetype size). by left.
      * right. by eexists _, _.
Qed.

(** C9. A POST /api/upload whose body has no file under the field name
    "file" is answered 400 with an error message; it registers nothing:
    the registry, the timers and the upload directory are as before. *)
Theorem upload_without_file_rejected (rt : runtime) (now : Z)
    (uuid uuid' : string) (fault : option errno) (body : list part)
    (st : state) :
  (∀ originalname mimetype size,
     FilePart "file" originalname mimetype size ∉ body) →
  ∃ msg,
    postUpload rt now uuid uuid' fault body st = (Json 400 (Text msg), st)
    ∧ msg ≠ ""
    ∧ status_of (postUpload rt now uuid uuid' fault body st).1 = 400
    ∧ documents (postUpload rt now uuid uuid' fault body st).2 = documents st.
Proof.
  intros Hnone. unfold postUpload.
  destruct (upload_single_no_file rt uuid fault body st Hnone)
    as [-> | (code & msg & -> & Hcode & Hmsg)].
  - by exists "No file uploaded".
  - exists msg. cbn [errorMiddleware fst snd status_of].
    by rewrite decide_False by done.
Qed.

Lemma upload_without_file_rejected_witness :
  ∃ msg,
    postUpload (node []) 1700000000000 "7f3c" "" None
      [Field "title" "Report";
       FilePart "document" "Report.pdf" "application/pdf" 10]
      afterUpload
    = (Json 400 (Text msg), afterUpload)
    ∧ msg ≠ "".
Proof.
  destruct (upload_without_file_rejected (node []) 1700000000000 "7f3c" ""
              None
              [Field "title" "Report";
               FilePart "document" "Report.pdf" "application/pdf" 10]
              afterUpload) as (msg & Hresp & Hmsg & _).
  - intros o m z Hin.
    apply elem_of_cons in Hin as [Heq | Hin]; [discriminate Heq |].
    apply elem_of_cons in Hin as [Heq | Hin]; [discriminate Heq |].
    by apply elem_of_nil in Hin.
  - exists msg. split; [exact Hresp | exact Hmsg].
Defined.






(** ** Expiry *)






(** *** Sums and products of whole numbers *)





(** *** What each event can do to the entry of an id *)

Lemma unlink_documents (fault : option errno) (p : string) (st : state) :
  documents (unlink fault p st).2 = documents st.
Proof.
  unfold unlink. destruct (decide (p ∈ disk st)); [| done].
  by destruct fault.
Qed.

Lemma evict_documents (closure : string * string) (fault : option errno)
    (st : state) :
  documents (evict closure fault st) = delete closure.1 (documents st).
Proof.
  unfold evict.
  pose proof (unlink_documents fault closure.2 (documents_delete closure.1 st))
    as Hdoc.
  destruct (unlink fault closure.2 (documents_delete closure.1 st))
    as [[code |] st2]; simpl in *; [| done].
  by destruct (decide (code = "ENOENT")).
Qed.

Lemma removeDocument_documents (fault : option errno) (id : string)
    (st : state) :
  documents (removeDocument fault id st).2 = documents st
  ∨ documents (removeDocument fault id st).2 = delete id (documents st).
Proof.
  unfold removeDocument. destruct (documents st !! id) as [e |]; [| by left].
  right.
  pose proof (unlink_documents fault (entry_path e)
                (documents_delete id (clearTimeout (entry_timeout e) st)))
    as Hdoc.
  destruct (unlink fault (entry_path e)
              (documents_delete id (clearTimeout (entry_timeout e) st)))
    as [[code |] st3]; simpl in *; [| done].
  by destruct (decide (code = "ENOENT")).
Qed.

Lemma getDocument_documents (io : option (string * bool)) (id : string)
    (st : state) :
  documents (getDocument io id st).2 = documents st
  ∨ documents (getDocument io id st).2 = delete id (documents st).
Proof.
  unfold getDocument. destruct (documents st !! id) as [e |]; [| by left].
  unfold sendFile. simpl.
  destruct (if decide (entry_path e ∈ disk st)
            then match io with
                 | Some (code, sent) => SendError code sent
                 | None => SendOk
                 end
            else SendError "ENOENT" false) as [| code sent]; [by left |].
  destruct (decide (code = "ENOENT")); [by right | by left].
Qed.








(** The other case of the rounding: with a TTL just below 1000 ms the sum
    of the ingestion time and the TTL is not a double, the double nearest
    to it is the next whole millisecond, and [expiresAt] is the ingestion
    time plus 1000 ms, more than the TTL after the ingestion. *)
Example expiry_rounds_up_example :
  ∃ ttl,
    documentTtlMs nearlyOneSecond = Finite ttl
    ∧ (ttl < 1000)%Q
    ∧ Qfloor (inject_Z 1700000000000 + ttl) = 1700000000999%Z
    ∧ (registerDocument nearlyOneSecond 1700000000000 "7f3c" otherFile
         initial).1
      = Some 1700000001000%Z.
Proof.
  eexists. split; [vm_compute; reflexivity |].
  split; [vm_compute; reflexivity |].
  split; vm_compute; reflexivity.
Qed.

(** ** Every reachable state is well formed *)

Lemma well_formed_initial : well_formed initial.
Proof.
  split.
  - intros h [c Hc]. destruct (lookup_empty_Some (M := gmap nat) h c Hc).
  - intros id e He. destruct (lookup_empty_Some (M := gmap string) id e He).
Qed.

Section Preservation.

Variables st st' : state.
Hypothesis Hwf : well_formed st.

Lemma well_formed_same :
  documents st' = documents st → timers st' = timers st →
  nextTimer st' = nextTimer st → well_formed st'.
Proof.
  destruct Hwf as [Hfresh Hown]. intros Hd Ht Hn. split.
  - intros h. rewrite Ht, Hn. apply Hfresh.
  - intros id e. rewrite Hd, Ht. apply Hown.
Qed.

(** An entry is dropped and the timers are left alone (the retrieval of
    a document whose file is gone). *)
Lemma well_formed_delete (id : string) :
  documents st' = delete id (documents st) → timers st' = timers st →
  nextTimer st' = nextTimer st → well_formed st'.
Proof.
  destruct Hwf as [Hfresh Hown]. intros Hd Ht Hn. split.
  - intros h. rewrite Ht, Hn. apply Hfresh.
  - intros id' e. rewrite Hd, Ht. intros He.
    apply lookup_delete_Some in He as [_ He]. by apply Hown.
Qed.

(** An entry is dropped together with its timer (a release). *)
Lemma well_formed_release (id : string) (e : entry) :
  documents st !! id = Some e →
  documents st' = delete id (documents st) →
  timers st' = delete (entry_timeout e) (timers st) →
  nextTimer st' = nextTimer st → well_formed st'.
Proof.
  destruct Hwf as [Hfresh Hown]. intros He Hd Ht Hn. split.
  - intros h. rewrite Ht, Hn. intros [c Hc].
    apply lookup_delete_Some in Hc as [_ Hc]. apply Hfresh. by exists c.
  - intros id' e'. rewrite Hd, Ht. intros He'.
    apply lookup_delete_Some in He' as [Hne He'].
    rewrite lookup_delete_ne; [by apply Hown |].
    intros Heq. pose proof (Hown id e He) as H1.
    pose proof (Hown id' e' He') as H2.
    rewrite Heq, H2 in H1. by injection H1 as ->.
Qed.

(** A timer fires: it leaves the pending timers and drops the entry of
    the id it closes over. *)
Lemma well_formed_fire (h : nat) (closure : string * string) :
  timers st !! h = Some closure →
  documents st' = delete closure.1 (documents st) →
  timers st' = delete h (timers st) →
  nextTimer st' = nextTimer st → well_formed st'.
Proof.
  destruct Hwf as [Hfresh Hown]. intros Hh Hd Ht Hn. split.
  - intros h'. rewrite Ht, Hn. intros [c Hc].
    apply lookup_delete_Some in Hc as [_ Hc]. apply Hfresh. by exists c.
  - intros id e. rewrite Hd, Ht. intros He.
    apply lookup_delete_Some in He as [Hne He].
    rewrite lookup_delete_ne; [by apply Hown |].
    intros Heq. pose proof (Hown id e He) as H1.
    rewrite <- Heq, Hh in H1. injection H1 as ->. by destruct Hne.
Qed.

(** A document is registered under a new timer. *)
Lemma well_formed_register (id : string) (e : entry) :
  entry_timeout e = nextTimer st →
  documents st' = <[id := e]> (documents st) →
  timers st' = <[nextTimer st := (id, entry_path e)]> (timers st) →
  nextTimer st' = S (nextTimer st) → well_formed st'.
Proof.
  destruct Hwf as [Hfresh Hown]. intros Hto Hd Ht Hn. split.
  - intros h. rewrite Ht, Hn. intros [c Hc].
    apply lookup_insert_Some in Hc as [[<- _] | [_ Hc]]; [lia |].
    assert (h < nextTimer st) by (apply Hfresh; by exists c). lia.
  - intros id' e'. rewrite Hd, Ht. intros He'.
    apply lookup_insert_Some in He' as [[<- <-] | [Hne He']].
    + rewrite Hto. apply lookup_insert_eq.
    + rewrite lookup_insert_ne; [by apply Hown |].
      intros Heq.
      assert (entry_timeout e' < nextTimer st); [| lia].
      apply Hfresh. rewrite (Hown id' e' He'). by eexists.
Qed.

End Preservation.

Lemma unlink_timers (fault : option errno) (p : string) (st : state) :
  timers (unlink fault p st).2 = timers st
  ∧ nextTimer (unlink fault p st).2 = nextTimer st.
Proof.
  unfold unlink. destruct (decide (p ∈ disk st)); [| done].
  by destruct fault.
Qed.

Lemma evict_timers (closure : string * string) (fault : option errno)
    (st : state) :
  timers (evict closure fault st) = timers st
  ∧ nextTimer (evict closure fault st) = nextTimer st.
Proof.
  unfold evict.
  pose proof (unlink_timers fault closure.2 (documents_delete closure.1 st))
    as Htm.
  destruct (unlink fault closure.2 (documents_delete closure.1 st))
    as [[code |] st2]; simpl in *; [| done].
  by destruct (decide (code = "ENOENT")).
Qed.

Lemma getDocument_timers (io : option (string * bool)) (id : string)
    (st : state) :
  timers (getDocument io id st).2 = timers st
  ∧ nextTimer (getDocument io id st).2 = nextTimer st.
Proof.
  unfold getDocument. destruct (documents st !! id) as [e |]; [| done].
  unfold sendFile. simpl.
  destruct (if decide (entry_path e ∈ disk st)
            then match io with
                 | Some (code, sent) => SendError code sent
                 | None => SendOk
                 end
            else SendError "ENOENT" false) as [| code sent]; [done |].
  by destruct (decide (code = "ENOENT")).
Qed.

Lemma removeDocument_well_formed (fault : option errno) (id : string)
    (st : state) :
  well_formed st → well_formed (removeDocument fault id st).2.
Proof.
  intros Hwf. destruct (documents st !! id) as [e |] eqn:Hentry.
  - destruct (decide (entry_path e ∈ disk st)) as [Hin | Hout].
    + destruct fault as [err |].
      * rewrite (removeDocument_refused err id e st Hentry Hin).
        by apply (well_formed_release st _ Hwf id e).
      * rewrite (removeDocument_deleted id e st Hentry Hin).
        by apply (well_formed_release st _ Hwf id e).
    + rewrite (removeDocument_missing fault id e st Hentry Hout).
      by apply (well_formed_release st _ Hwf id e).
  - by rewrite (removeDocument_absent fault id st Hentry).
Qed.

(** Each event takes a well-formed state to a well-formed state. *)
Lemma step_well_formed (rt : runtime) (ev : event) (st : state) :
  well_formed st → well_formed (step rt ev st).
Proof.
  intros Hwf.
  destruct ev as [now uuid uuid' fault body | io id | fault id | h fault];
    simpl.
  - unfold postUpload.
    destruct (upload_single_state rt uuid fault body None st)
      as (Hdoc & Htm & Hnext & _).
    destruct (upload_single rt uuid fault body None st)
      as [[[f |] g | err] st1];
      simpl in *.
    + assert (Hwf1 : well_formed st1) by by apply (well_formed_same st).
      destruct (decide (file_mimetype f = "application/pdf")).
      * unfold registerDocument; simpl.
        destruct (newDate _); simpl;
          (eapply (well_formed_register st1 _ Hwf1 (default uuid' g));
           [| reflexivity | reflexivity | reflexivity]; reflexivity).
      * pose proof (unlink_documents fault (file_path f) st1) as Hdoc'.
        destruct (unlink_timers fault (file_path f) st1) as [Htm' Hnext'].
        destruct (unlink fault (file_path f) st1) as [err st2]; simpl in *.
        by apply (well_formed_same st1).
    + by apply (well_formed_same st).
    + by apply (well_formed_same st).
  - destruct (getDocument_timers io id st) as [Htm Hnext].
    destruct (getDocument_documents io id st) as [Hdoc | Hdoc].
    + by apply (well_formed_same st).
    + by apply (well_formed_delete st _ Hwf id).
  - unfold deleteDocument.
    pose proof (removeDocument_well_formed fault id st Hwf) as Hwf'.
    by destruct (removeDocument fault id st) as [[[] | code] st1].
  - unfold fireTimeout.
    destruct (timers st !! h) as [closure |] eqn:Hpending; [| done].
    apply (well_formed_fire st _ Hwf h closure Hpending).
    + by rewrite evict_documents.
    + by destruct (evict_timers closure fault
                     {| documents := documents st;
                        timers := delete h (timers st);
                        nextTimer := nextTimer st; disk := disk st;
                        trace := trace st |}) as [-> _].
    + by destruct (evict_timers closure fault
                     {| documents := documents st;
                        timers := delete h (timers st);
                        nextTimer := nextTimer st; disk := disk st;
                        trace := trace st |}) as [_ ->].
Qed.

(** The registry owns its timers in every state the process can reach:
    each entry's timer is pending and closes over that entry's id and
    path. *)
Lemma reachable_well_formed (rt : runtime) (evs : list event) :
  well_formed (run rt evs initial).
Proof.
  assert (H : ∀ st, well_formed st → well_formed (run rt evs st)).
  { induction evs as [| ev evs IH]; intros st Hwf; simpl; [done |].
    by apply IH, step_well_formed. }
  apply H, well_formed_initial.
Qed.

(** * Further properties of the server *)

(** ** Uploads *)

Lemma upload_single_passes (rt : runtime) (uuid : string)
    (fault : option errno) (pre rest : list part) (stored : option file)
    (st : state) :
  Forall passed_over pre →
  upload_single rt uuid fault (pre ++ rest)%list stored st
  = upload_single rt uuid fault rest stored st.
Proof.
  induction 1 as [| [name value | fieldname originalname mimetype size] pre
                    Hpass _ IH]; cbn [app upload_single]; [done | |].
  - simpl in Hpass.
    by rewrite (proj2 (Z.leb_gt fieldSize _) Hpass).
  - simpl in Hpass. by rewrite decide_True by done.
Qed.

Lemma upload_single_passed (rt : runtime) (uuid : string)
    (fault : option errno) (post : list part) (stored : option file)
    (st : state) :
  Forall passed_over post →
  upload_single rt uuid fault post stored st
  = (Accepted stored match stored with Some _ => Some uuid | None => None end,
     st).
Proof.
  intros Hpost.
  rewrite <- (app_nil_r post).
  by rewrite (upload_single_passes rt uuid fault post [] stored st Hpost).
Qed.

(** A file that does not reach the limit is handed on whole; a file that
    is handed on, whole or cut, does not reach the limit. *)
Lemma received_within (size : Z) (limit : jsnum) :
  exceeds size limit = false → received size limit = Some size.
Proof. unfold received. intros ->. by destruct limit. Qed.

Lemma received_below (size written : Z) (limit : jsnum) :
  received size limit = Some written → exceeds written limit = false.
Proof.
  unfold received. destruct limit as [| negative | q]; [done | done |].
  destruct (exceeds size (Finite q)) eqn:Hsize; [| by intros [= <-]].
  destruct (Qeq_bool (inject_Z (Qfloor q)) q) eqn:Hwhole; [done |].
  intros [= <-]. cbn [exceeds].
  apply not_true_is_false. intros Hle%Qle_bool_iff.
  apply Qeq_bool_neq in Hwhole. destruct Hwhole.
  apply Qle_antisym; [apply Qfloor_le | exact Hle].
Qed.

(** A file that reaches a limit that is a whole number of bytes is
    refused. *)
Lemma received_refused (size limit : Z) :
  (limit ≤ size)%Z → received size (Finite (inject_Z limit)) = None.
Proof.
  intros Hsize. unfold received, exceeds.
  rewrite (proj2 (Qle_bool_iff _ _)) by (by rewrite <- Zle_Qle).
  rewrite Qfloor_Z. by rewrite (proj2 (Qeq_bool_iff _ _)) by reflexivity.
Qed.

Lemma registerDocument_eq (rt : runtime) (now : Z) (id : string) (f : file)
    (st : state) :
  registerDocument rt now id f st
  = (newDate (jsadd (Finite (inject_Z now)) (documentTtlMs rt)),
     {| documents :=
          <[id := {| entry_path := file_path f;
                     entry_originalName := file_originalname f;
                     entry_size := file_size f;
                     entry_mimeType := file_mimetype f;
                     entry_expiresAt :=
                       newDate (jsadd (Finite (inject_Z now))
                                  (documentTtlMs rt));
                     entry_timeout := nextTimer st |}]> (documents st);
        timers := <[nextTimer st := (id, file_path f)]> (timers st);
        nextTimer := S (nextTimer st);
        disk := disk st;
        trace := trace st ++ [SetTimeout (nextTimer st); MapSet id] |}).
Proof.
  unfold registerDocument, setTimeout, documents_set, emit.
  cbn [documents timers nextTimer disk trace].
  by rewrite <- app_assoc.
Qed.

(** [upload_single] on a body that holds, among parts multer passes
    over, one file under the field name "file". *)
Lemma upload_single_file (rt : runtime) (uuid : string)
    (fault : option errno) (pre post : list part) (name mime : string)
    (size : Z) (st : state) :
  Forall passed_over pre →
  name ≠ "" →
  upload_single rt uuid fault
    (pre ++ FilePart "file" name mime size :: post)%list None st
  = match fileFilter mime with
    | Some msg => (Rejected (OtherError msg), st)
    | None =>
        let p := uploadDir rt +:+ "/" +:+ filename rt uuid name in
        match fault with
        | Some e =>
            (Rejected (OtherError (errno_code e)),
             if afterOpen e then writeFile p st else st)
        | None =>
            match received size (uploadLimitBytes rt) with
            | None =>
                (Rejected (MulterError "LIMIT_FILE_SIZE" "File too large"),
                 removeFile p st)
            | Some written =>
                upload_single rt uuid fault post
                  (Some {| file_path := p; file_originalname := name;
                           file_size := written; file_mimetype := mime |})
                  (writeFile p st)
            end
        end
    end.
Proof.
  intros Hpre Hname.
  rewrite (upload_single_passes rt uuid fault pre _ None st Hpre).
  cbn [upload_single]. rewrite decide_False by done.
  by rewrite decide_True by done.
Qed.

(** The upload route on a body that holds, among parts multer passes
    over, one PDF file under the field name "file" that does not reach the
    size limit and is written without error. *)
Lemma postUpload_pdf (rt : runtime) (now : Z) (uuid uuid' : string)
    (pre post : list part) (name : string) (size : Z)
    (t : Z) (st : state) :
  Forall passed_over pre →
  Forall passed_over post →
  name ≠ "" →
  exceeds size (uploadLimitBytes rt) = false →
  newDate (jsadd (Finite (inject_Z now)) (documentTtlMs rt)) = Some t →
  let p := uploadDir rt +:+ "/" +:+ uuid +:+ storageExt rt name in
  postUpload rt now uuid uuid' None
    (pre ++ FilePart "file" name "application/pdf" size :: post)%list st
  = (Created uuid name size t,
     {| documents :=
          <[uuid := {| entry_path := p; entry_originalName := name;
                       entry_size := size;
                       entry_mimeType := "application/pdf";
                       entry_expiresAt := Some t;
                       entry_timeout := nextTimer st |}]> (documents st);
        timers := <[nextTimer st := (uuid, p)]> (timers st);
        nextTimer := S (nextTimer st);
        disk := disk st ∪ {[p]};
        trace := trace st ++ [SetTimeout (nextTimer st); MapSet uuid] |}).
Proof.
  intros Hpre Hpost Hname Hsize Hdate p. unfold postUpload.
  rewrite (upload_single_file rt uuid None pre post name _ size st Hpre Hname).
  unfold fileFilter. rewrite decide_True by done. cbv zeta.
  rewrite (received_within _ _ Hsize).
  rewrite (upload_single_passed rt uuid None post _ _ Hpost).
  unfold uploadHandler. cbn [file_mimetype].
  rewrite decide_True by done.
  rewrite registerDocument_eq, Hdate. reflexivity.
Qed.

(** X1. An upload is accepted when its body holds one file with a file
    name under the field name "file", of type application/pdf and shorter
    than the size limit, among parts multer passes over (text fields
    below busboy's limit, files without a file name), when the write of
    the file succeeds and the expiry is a valid date [t].  It is answered
    201 with the drawn identifier, the file name, the size and [t].  The
    file is then on disk in the upload directory under the identifier and
    the extension of its name, the entry records what was sent, a timer is
    pending for the identifier and path, and the entries of other
    identifiers are untouched. *)
Theorem upload_accepted (rt : runtime) (now : Z) (uuid uuid' : string)
    (pre post : list part) (name : string) (size : Z)
    (t : Z) (st : state) :
  Forall passed_over pre →
  Forall passed_over post →
  name ≠ "" →
  exceeds size (uploadLimitBytes rt) = false →
  newDate (jsadd (Finite (inject_Z now)) (documentTtlMs rt)) = Some t →
  let p := uploadDir rt +:+ "/" +:+ uuid +:+ storageExt rt name in
  let body :=
    (pre ++ FilePart "file" name "application/pdf" size :: post)%list in
  let st' := (postUpload rt now uuid uuid' None body st).2 in
  (postUpload rt now uuid uuid' None body st).1 = Created uuid name size t
  ∧ documents st' !! uuid
    = Some {| entry_path := p; entry_originalName := name;
              entry_size := size; entry_mimeType := "application/pdf";
              entry_expiresAt := Some t; entry_timeout := nextTimer st |}
  ∧ p ∈ disk st'
  ∧ timers st' !! nextTimer st = Some (uuid, p)
  ∧ ∀ id, id ≠ uuid → documents st' !! id = documents st !! id.
Proof.
  intros Hpre Hpost Hname Hsize Hdate p body st'. subst st' body.
  rewrite (postUpload_pdf rt now uuid uuid' pre post name size t st
             Hpre Hpost Hname Hsize Hdate).
  cbn [fst snd documents timers disk]. split_and!.
  - done.
  - apply lookup_insert_eq.
  - apply elem_of_union_r. by apply elem_of_singleton.
  - apply lookup_insert_eq.
  - intros id Hne. by apply lookup_insert_ne.
Qed.

Lemma upload_accepted_witness :
  Forall passed_over [Field "title" "Report"]
  ∧ Forall passed_over [Field "note" "draft"]
  ∧ "Report.PDF" ≠ ""
  ∧ exceeds 10 (uploadLimitBytes (node [])) = false
  ∧ (postUpload (node []) 1700000000000 "7f3c" "" None uploadBody initial).1
    = Created "7f3c" "Report.PDF" 10 1700001800000.
Proof.
  assert (H1 : Forall passed_over [Field "title" "Report"])
    by (repeat constructor).
  assert (H2 : Forall passed_over [Field "note" "draft"])
    by (repeat constructor).
  assert (H0 : "Report.PDF" ≠ "") by (intros H; discriminate H).
  assert (H3 : exceeds 10 (uploadLimitBytes (node [])) = false)
    by (vm_compute; reflexivity).
  assert (H4 : newDate (jsadd (Finite (inject_Z 1700000000000))
                          (documentTtlMs (node [])))
               = Some 1700001800000%Z) by (vm_compute; reflexivity).
  split; [exact H1 |]. split; [exact H2 |]. split; [exact H0 |].
  split; [exact H3 |].
  exact (proj1 (upload_accepted (node []) 1700000000000 "7f3c" ""
                  [Field "title" "Report"] [Field "note" "draft"]
                  "Report.PDF" 10 1700001800000 initial H1 H2 H0 H3 H4)).
Defined.

(** X2. Upload, then retrieval: after an upload accepted as in X1, a GET
    of the returned identifier whose transfer succeeds sends the stored
    file with the content type, the length and the file name recorded at
    the upload; it adds the transfer to the trace and leaves the
    registry, the timers and the disk as they were. *)
Theorem upload_then_fetch (rt : runtime) (now : Z) (uuid uuid' : string)
    (pre post : list part) (name : string) (size : Z)
    (t : Z) (st : state) :
  Forall passed_over pre →
  Forall passed_over post →
  name ≠ "" →
  exceeds size (uploadLimitBytes rt) = false →
  newDate (jsadd (Finite (inject_Z now)) (documentTtlMs rt)) = Some t →
  let p := uploadDir rt +:+ "/" +:+ uuid +:+ storageExt rt name in
  let body :=
    (pre ++ FilePart "file" name "application/pdf" size :: post)%list in
  let st1 := (postUpload rt now uuid uuid' None body st).2 in
  getDocument None uuid st1
  = (FileSent p "application/pdf" size name, emit (SendFile p) st1).
Proof.
  intros Hpre Hpost Hname Hsize Hdate p body st1. subst st1 body.
  rewrite (postUpload_pdf rt now uuid uuid' pre post name size t st
             Hpre Hpost Hname Hsize Hdate).
  cbn [snd]. unfold getDocument. cbn [documents].
  rewrite lookup_insert_eq. unfold sendFile. cbn [entry_path disk].
  rewrite decide_True; [done |].
  apply elem_of_union_r. by apply elem_of_singleton.
Qed.

Lemma upload_then_fetch_witness :
  Forall passed_over [Field "title" "Report"]
  ∧ Forall passed_over [Field "note" "draft"]
  ∧ "Report.PDF" ≠ ""
  ∧ exceeds 10 (uploadLimitBytes (node [])) = false
  ∧ (getDocument None "7f3c"
       (postUpload (node []) 1700000000000 "7f3c" "" None uploadBody
          initial).2).1
    = FileSent reportPath "application/pdf" 10 "Report.PDF".
Proof.
  assert (H1 : Forall passed_over [Field "title" "Report"])
    by (repeat constructor).
  assert (H2 : Forall passed_over [Field "note" "draft"])
    by (repeat constructor).
  assert (H0 : "Report.PDF" ≠ "") by (intros H; discriminate H).
  assert (H3 : exceeds 10 (uploadLimitBytes (node [])) = false)
    by (vm_compute; reflexivity).
  assert (H4 : newDate (jsadd (Finite (inject_Z 1700000000000))
                          (documentTtlMs (node [])))
               = Some 1700001800000%Z) by (vm_compute; reflexivity).
  split; [exact H1 |]. split; [exact H2 |]. split; [exact H0 |].
  split; [exact H3 |].
  pose proof (upload_then_fetch (node []) 1700000000000 "7f3c" ""
                [Field "title" "Report"] [Field "note" "draft"]
                "Report.PDF" 10 1700001800000 initial H1 H2 H0 H3 H4) as H.
  cbv zeta in H. unfold uploadBody, reportPdf.
  change ([Field "title" "Report";
           FilePart "file" "Report.PDF" "application/pdf" 10;
           Field "note" "draft"])
    with ([Field "title" "Report"] ++
          FilePart "file" "Report.PDF" "application/pdf" 10
          :: [Field "note" "draft"])%list.
  rewrite H. vm_compute. reflexivity.
Defined.

(** X3. An upload whose first file with a file name is sent under the
    field name "file" with a media type (as busboy reports it, in lower
    case) other than application/pdf is answered 400 with the filter's
    message, whatever follows it in the body, and changes nothing: no file
    is written, nothing is registered, no timer is set. *)
Theorem upload_wrong_type_rejected (rt : runtime) (now : Z)
    (uuid uuid' : string) (fault : option errno) (pre post : list part)
    (name mime : string) (size : Z) (st : state) :
  Forall passed_over pre →
  name ≠ "" →
  mime ≠ "application/pdf" →
  postUpload rt now uuid uuid' fault
    (pre ++ FilePart "file" name mime size :: post)%list st
  = (Json 400 (Text "Only PDF files are supported."), st).
Proof.
  intros Hpre Hname Hmime. unfold postUpload.
  rewrite (upload_single_file rt uuid fault pre post name _ size st Hpre Hname).
  unfold fileFilter. by rewrite decide_False by done.
Qed.

Lemma upload_wrong_type_rejected_witness :
  Forall passed_over [Field "title" "Notes"]
  ∧ "notes.txt" ≠ ""
  ∧ "text/plain" ≠ "application/pdf"
  ∧ postUpload (node []) 1700000000000 "7f3c" "" None
      [Field "title" "Notes"; FilePart "file" "notes.txt" "text/plain" 10]
      afterUpload
    = (Json 400 (Text "Only PDF files are supported."), afterUpload).
Proof.
  assert (H1 : Forall passed_over [Field "title" "Notes"])
    by (repeat constructor).
  assert (H0 : "notes.txt" ≠ "") by (intros H; discriminate H).
  assert (H2 : "text/plain" ≠ "application/pdf")
    by (intros H; discriminate H).
  split; [exact H1 |]. split; [exact H0 |]. split; [exact H2 |].
  exact (upload_wrong_type_rejected (node []) 1700000000000 "7f3c" "" None
           [Field "title" "Notes"] [] "notes.txt" "text/plain" 10
           afterUpload H1 H0 H2).
Defined.

(** X4. When the size limit is a whole number of bytes, an upload whose
    PDF file has that many bytes or more is answered 400 with the message
    that names the limit in megabytes ([uploadLimitMb]).  Nothing is
    registered and no timer is set; multer removes what it wrote of the
    file, so no file is left under the name drawn for it. *)
Theorem upload_too_large_rejected (rt : runtime) (now : Z)
    (uuid uuid' : string) (pre post : list part)
    (name : string) (size limit : Z) (st : state) :
  Forall passed_over pre →
  name ≠ "" →
  uploadLimitBytes rt = Finite (inject_Z limit) →
  (limit ≤ size)%Z →
  let p := uploadDir rt +:+ "/" +:+ uuid +:+ storageExt rt name in
  postUpload rt now uuid uuid' None
    (pre ++ FilePart "file" name "application/pdf" size :: post)%list st
  = (Json 400 (SizeLimit (uploadLimitMb rt)), removeFile p st).
Proof.
  intros Hpre Hname Hlimit Hsize p. unfold postUpload.
  rewrite (upload_single_file rt uuid None pre post name _ size st Hpre Hname).
  unfold fileFilter. rewrite decide_True by done. cbv zeta.
  by rewrite Hlimit, (received_refused size limit Hsize).
Qed.

Lemma upload_too_large_rejected_witness :
  Forall passed_over []
  ∧ "big.pdf" ≠ ""
  ∧ uploadLimitBytes (node [("UPLOAD_LIMIT_MB", "1")])
    = Finite (inject_Z 1048576)
  ∧ (1048576 ≤ 1048576)%Z
  ∧ postUpload (node [("UPLOAD_LIMIT_MB", "1")]) 1700000000000 "7f3c" ""
      None [FilePart "file" "big.pdf" "application/pdf" 1048576] initial
    = (Json 400 (SizeLimit (Finite 1)),
       removeFile "/srv/server/uploads/7f3c.pdf" initial).
Proof.
  assert (H1 : Forall passed_over []) by constructor.
  assert (H0 : "big.pdf" ≠ "") by (intros H; discriminate H).
  assert (H2 : uploadLimitBytes (node [("UPLOAD_LIMIT_MB", "1")])
               = Finite (inject_Z 1048576)) by (vm_compute; reflexivity).
  assert (H3 : (1048576 ≤ 1048576)%Z) by lia.
  split; [exact H1 |]. split; [exact H0 |]. split; [exact H2 |].
  split; [exact H3 |].
  exact (upload_too_large_rejected (node [("UPLOAD_LIMIT_MB", "1")])
           1700000000000 "7f3c" "" [] [] "big.pdf" 1048576 1048576 initial
           H1 H0 H2 H3).
Defined.

(** Every way [upload_single] can end on a request: the handler is called
    without a file; or with a stored PDF file below the size limit; or an
    error is reported that the error middleware answers with a 400, and no
    file is added; or the write of the file fails, the error goes to the
    final handler, and at most what was written of the file is left. *)
Lemma upload_single_outcomes (rt : runtime) (uuid : string)
    (fault : option errno) (body : list part) (st : state) :
  upload_single rt uuid fault body None st = (Accepted None None, st)
  ∨ (∃ f, upload_single rt uuid fault body None st
          = (Accepted (Some f) (Some uuid), writeFile (file_path f) st)
          ∧ fault = None
          ∧ file_mimetype f = "application/pdf"
          ∧ exceeds (file_size f) (uploadLimitBytes rt) = false
          ∧ file_path f
            = uploadDir rt +:+ "/" +:+ uuid
              +:+ storageExt rt (file_originalname f))
  ∨ (∃ err st1,
       upload_single rt uuid fault body None st = (Rejected err, st1)
       ∧ documents st1 = documents st ∧ timers st1 = timers st
       ∧ nextTimer st1 = nextTimer st ∧ trace st1 = trace st
       ∧ ((∃ msg, errorMiddleware rt err = Json 400 msg
                  ∧ disk st1 ⊆ disk st)
          ∨ (∃ e name,
               fault = Some e
               ∧ errorMiddleware rt err = Unhandled (errno_code e)
               ∧ disk st1
                 ⊆ disk st
                   ∪ {[uploadDir rt +:+ "/" +:+ uuid
                       +:+ storageExt rt name]}))).
Proof.
  induction body
    as [| [name value | fieldname originalname mimetype size] body IH];
    cbn [upload_single]; [by left | |].
  - destruct (fieldSize <=? Z.of_nat (String.length value))%Z; [| exact IH].
    right. right. eexists _, st. split; [done |]. split_and!; try done.
    left. by eexists.
  - destruct (decide (originalname = "")); [exact IH |].
    right. destruct (decide (fieldname = "file")) as [-> | Hne].
    + unfold fileFilter.
      destruct (decide (mimetype = "application/pdf")) as [-> | Hmime].
      * destruct fault as [err |].
        -- right. eexists _, _. split; [done |].
           split_and!; try (by destruct (afterOpen err)).
           right. exists err, originalname. split; [done |]. split.
           ++ cbn [errorMiddleware].
              by rewrite decide_False by apply errno_code_not_filter.
           ++ destruct (afterOpen err); cbn [disk writeFile];
                [done | apply union_subseteq_l].
        -- destruct (received size (uploadLimitBytes rt)) as [written |]
             eqn:Hsize.
           ++ match goal with
              | |- context [upload_single _ _ _ _ (Some ?f0) ?s] =>
                  destruct (upload_single_stored rt uuid None body f0 s)
                    as [-> | (code & msg & -> & Hcode & Hmsg)];
                    [left; exists f0; split_and!; try done;
                     by apply (received_below size) |]
              end.
              right. eexists _, _. split; [done |].
              split_and!; try done.
              left. exists (Text msg). split.
              ** cbn [errorMiddleware]. by rewrite decide_False by done.
              ** cbn [disk removeFile writeFile file_path].
                 intros x [[Hx | Hx]%elem_of_union Hnx]%elem_of_difference;
                   [done | by destruct Hnx].
           ++ right. eexists _, _. split; [done |].
              split_and!; try done.
              left. eexists. split; [done |].
              cbn [disk removeFile].
              intros x [Hx _]%elem_of_difference. exact Hx.
      * right. eexists _, st. split; [done |]. split_and!; try done.
        left. eexists. split; [| done].
        cbn [errorMiddleware]. by rewrite decide_True by done.
    + right. eexists _, st. split; [done |]. split_and!; try done.
      left. by eexists.
Qed.

(** The handler is called with a file only when the write succeeded. *)
Lemma upload_single_accepted_single (rt : runtime) (uuid : string)
    (fault : option errno) (body : list part) (st : state) (f : file)
    (g : option string) (st' : state) :
  upload_single rt uuid fault body None st = (Accepted (Some f) g, st') →
  single rt uuid body None st = (Accepted (Some f) g, st').
Proof.
  intros Hacc. unfold single.
  destruct (upload_single_outcomes rt uuid fault body st)
    as [H | [(f0 & H & -> & _) | (err & st1 & H & _)]];
    rewrite H in Hacc; [discriminate Hacc | | discriminate Hacc].
  by rewrite H.
Qed.

(** What an upload does to the registry: nothing, or it stores an entry
    under the identifier it drew. *)
Lemma upload_outcomes_registry (rt : runtime) (now : Z) (uuid uuid' : string)
    (fault : option errno) (body : list part) (st : state) :
  documents (postUpload rt now uuid uuid' fault body st).2 = documents st
  ∨ ∀ id, id ≠ uuid →
          documents (postUpload rt now uuid uuid' fault body st).2 !! id
          = documents st !! id.
Proof.
  unfold postUpload.
  destruct (upload_single_outcomes rt uuid fault body st)
    as [-> | [(f & -> & _ & Hmime & _) | (err & st1 & -> & Hd & _)]].
  - by left.
  - right. intros id Hne. unfold uploadHandler.
    rewrite decide_True by done. rewrite registerDocument_eq.
    cbn [default].
    destruct (newDate _); cbn [snd documents];
      by rewrite lookup_insert_ne.
  - by left.
Qed.


(** A write that fails with EIO: the answer is the 500 of the final
    handler, nothing is registered, and the partial file is left. *)
Example write_failure_example :
  postUpload (node []) 1700000000000 "7f3c" "" (Some EIO) uploadBody initial
  = (Unhandled "EIO", writeFile reportPath initial)
  ∧ postUpload (node []) 1700000000000 "7f3c" "" (Some EACCES) uploadBody
      initial
    = (Unhandled "EACCES", initial).
Proof. vm_compute. split; reflexivity. Qed.

Lemma upload_single_nameless (rt : runtime) (uuid : string)
    (fault : option errno) (pre post : list part) (fieldname mime : string)
    (size : Z) (stored : option file) (st : state) :
  upload_single rt uuid fault
    (pre ++ FilePart fieldname "" mime size :: post)%list stored st
  = upload_single rt uuid fault (pre ++ post)%list stored st.
Proof.
  revert stored st.
  induction pre as [| [name value | fieldname' originalname mimetype size']
                      pre IH]; intros stored st; cbn [app upload_single].
  - by rewrite decide_True by done.
  - by destruct (fieldSize <=? Z.of_nat (String.length value))%Z.
  - destruct (decide (originalname = "")); [apply IH |].
    destruct stored as [f0 |]; [done |].
    destruct (decide (fieldname' = "file")); [| done].
    destruct (fileFilter mimetype); [done |].
    destruct fault as [err |]; [done |].
    by destruct (received size' (uploadLimitBytes rt)).
Qed.

(** X22. A file part without a file name is ignored, under whatever
    field name and of whatever type and length: the route answers a body
    that holds one as it answers the body without it, and leaves the same
    state. *)
Theorem nameless_file_ignored (rt : runtime) (now : Z) (uuid uuid' : string)
    (fault : option errno) (pre post : list part) (fieldname mime : string)
    (size : Z) (st : state) :
  postUpload rt now uuid uuid' fault
    (pre ++ FilePart fieldname "" mime size :: post)%list st
  = postUpload rt now uuid uuid' fault (pre ++ post)%list st.
Proof. unfold postUpload. by rewrite upload_single_nameless. Qed.

(** X23. When the write of the uploaded file fails, the upload of a PDF
    file that would have been accepted as in X1 is answered by the final
    handler of Express with a 500: the error middleware passes the error
    on.  Nothing is registered and no timer is set.  What a failing write
    had written is left in the upload directory, under the name drawn for
    the file (an EIO); an error of the opening leaves nothing. *)
Theorem upload_write_failure (rt : runtime) (now : Z) (uuid uuid' : string)
    (e : errno) (pre post : list part) (name : string) (size : Z)
    (st : state) :
  Forall passed_over pre →
  Forall passed_over post →
  name ≠ "" →
  exceeds size (uploadLimitBytes rt) = false →
  let p := uploadDir rt +:+ "/" +:+ uuid +:+ storageExt rt name in
  let r :=
    postUpload rt now uuid uuid' (Some e)
      (pre ++ FilePart "file" name "application/pdf" size :: post)%list st in
  r = (Unhandled (errno_code e), if afterOpen e then writeFile p st else st)
  ∧ status_of r.1 = 500
  ∧ documents r.2 = documents st
  ∧ timers r.2 = timers st
  ∧ trace r.2 = trace st.
Proof.
  intros Hpre _ Hname _ p r. subst r. unfold postUpload.
  rewrite (upload_single_file rt uuid (Some e) pre post name _ size st
             Hpre Hname).
  unfold fileFilter. rewrite decide_True by done. cbv zeta.
  cbn [errorMiddleware].
  rewrite decide_False by apply errno_code_not_filter.
  split; [done |]. by destruct (afterOpen e).
Qed.

Lemma upload_write_failure_witness :
  Forall passed_over [Field "title" "Report"]
  ∧ Forall passed_over [Field "note" "draft"]
  ∧ "Report.PDF" ≠ ""
  ∧ exceeds 10 (uploadLimitBytes (node [])) = false
  ∧ postUpload (node []) 1700000000000 "7f3c" "" (Some EROFS) uploadBody
      initial
    = (Unhandled "EROFS", initial).
Proof.
  assert (H1 : Forall passed_over [Field "title" "Report"])
    by (repeat constructor).
  assert (H2 : Forall passed_over [Field "note" "draft"])
    by (repeat constructor).
  assert (H0 : "Report.PDF" ≠ "") by (intros H; discriminate H).
  assert (H3 : exceeds 10 (uploadLimitBytes (node [])) = false)
    by (vm_compute; reflexivity).
  split; [exact H1 |]. split; [exact H2 |]. split; [exact H0 |].
  split; [exact H3 |].
  exact (proj1 (upload_write_failure (node []) 1700000000000 "7f3c" ""
                  EROFS [Field "title" "Report"] [Field "note" "draft"]
                  "Report.PDF" 10 initial H1 H2 H0 H3)).
Defined.

(** ** Retrieval, release and eviction *)

(** X6. A retrieval whose transfer fails for a reason other than ENOENT
    keeps the document: the failure is logged once, the answer is 500
    when no header has gone out (and nothing more is sent when one has),
    the registry, the timers and the disk are as before, and a later
    retrieval of the same id can succeed. *)
Theorem fetch_failure_keeps_entry (code : string) (sent : bool) (id : string)
    (e : entry) (st : state) :
  documents st !! id = Some e →
  entry_path e ∈ disk st →
  code ≠ "ENOENT" →
  let st' := (getDocument (Some (code, sent)) id st).2 in
  (getDocument (Some (code, sent)) id st).1
  = (if sent then FileAborted (entry_path e)
     else Json 500 (Text "Unable to retrieve document."))
  ∧ documents st' = documents st
  ∧ timers st' = timers st
  ∧ disk st' = disk st
  ∧ trace st'
    = (trace st ++
       [SendFile (entry_path e);
        ConsoleError ("Failed to stream document " +:+ id) code])%list
  ∧ (getDocument None id st').1
    = FileSent (entry_path e) (entry_mimeType e) (entry_size e)
        (entry_originalName e).
Proof.
  intros Hentry Hfile Hcode. unfold getDocument at 1 2. rewrite Hentry.
  unfold sendFile. rewrite decide_True by done.
  cbn [fst snd]. rewrite decide_False by done.
  cbn [fst snd]. unfold console_error, emit.
  cbn [documents timers disk trace nextTimer].
  split_and!; try done.
  - by rewrite <- app_assoc.
  - unfold getDocument. cbn [documents]. rewrite Hentry.
    unfold sendFile. cbn [disk]. by rewrite decide_True by done.
Qed.

Lemma fetch_failure_keeps_entry_witness :
  documents afterUpload !! "7f3c" = Some reportEntry
  ∧ reportPath ∈ disk afterUpload
  ∧ "ECONNABORTED" ≠ "ENOENT"
  ∧ (getDocument (Some ("ECONNABORTED", false)) "7f3c" afterUpload).1
    = Json 500 (Text "Unable to retrieve document.")
  ∧ documents (getDocument (Some ("ECONNABORTED", false)) "7f3c"
                 afterUpload).2
    = documents afterUpload.
Proof.
  assert (H1 : documents afterUpload !! "7f3c" = Some reportEntry)
    by (vm_compute; reflexivity).
  assert (H2 : entry_path reportEntry ∈ disk afterUpload)
    by (vm_compute; reflexivity).
  assert (H3 : "ECONNABORTED" ≠ "ENOENT") by (intros H; discriminate H).
  split; [exact H1 |]. split; [exact H2 |]. split; [exact H3 |].
  destruct (fetch_failure_keeps_entry "ECONNABORTED" false "7f3c"
              reportEntry afterUpload H1 H2 H3) as (Hr & Hd & _).
  split; [exact Hr | exact Hd].
Defined.

(** X7. The retrieval that finds the file gone removes the entry but does
    not clear its timer.  In a well-formed state the timer is still
    pending afterwards, and when it fires it finds nothing to do: the
    registry and the disk stay as they are and nothing is logged. *)
Theorem self_heal_leaves_timer (io : option (string * bool))
    (fault : option errno) (id : string) (e : entry) (st : state) :
  well_formed st →
  documents st !! id = Some e →
  entry_path e ∉ disk st →
  let st1 := (getDocument io id st).2 in
  let st2 := fireTimeout (entry_timeout e) fault st1 in
  timers st1 !! entry_timeout e = Some (id, entry_path e)
  ∧ documents st2 = documents st1
  ∧ disk st2 = disk st1
  ∧ timers st2 !! entry_timeout e = None
  ∧ trace st2
    = (trace st1 ++
       [MapDelete id; Unlink (entry_path e) (Some "ENOENT")])%list.
Proof.
  intros [_ Hown] Hentry Hfile.
  pose proof (Hown id e Hentry) as Htimer.
  unfold getDocument. rewrite Hentry.
  unfold sendFile. rewrite decide_False by done.
  cbn [fst snd]. rewrite decide_True by done. cbn [fst snd].
  unfold fireTimeout, documents_delete, emit.
  cbn [documents timers disk trace nextTimer]. rewrite Htimer.
  unfold evict, unlink, documents_delete, emit.
  cbn [fst snd documents timers disk trace nextTimer].
  rewrite decide_False by done. cbn [fst snd].
  rewrite decide_True by done.
  cbn [documents timers disk trace nextTimer].
  split_and!; try done.
  - by rewrite delete_delete_eq.
  - apply lookup_delete_eq.
  - by rewrite <- !app_assoc.
Qed.

Lemma self_heal_leaves_timer_witness :
  well_formed afterUploadFileGone
  ∧ documents afterUploadFileGone !! "7f3c" = Some reportEntry
  ∧ (reportPath ∉ disk afterUploadFileGone)
  ∧ timers (getDocument None "7f3c" afterUploadFileGone).2 !! 0
    = Some ("7f3c", reportPath)
  ∧ documents (fireTimeout 0 (Some EIO)
                 (getDocument None "7f3c" afterUploadFileGone).2)
    = documents (getDocument None "7f3c" afterUploadFileGone).2.
Proof.
  assert (H0 : well_formed afterUploadFileGone).
  { apply (well_formed_same afterUpload); [| reflexivity..].
    exact (reachable_well_formed (node [])
             [Upload 1700000000000 "7f3c" "" None [reportPdf]]). }
  assert (H1 : documents afterUploadFileGone !! "7f3c" = Some reportEntry)
    by (vm_compute; reflexivity).
  assert (H2 : entry_path reportEntry ∉ disk afterUploadFileGone).
  { apply (bool_decide_unpack _). vm_compute. exact I. }
  split; [exact H0 |]. split; [exact H1 |]. split; [exact H2 |].
  destruct (self_heal_leaves_timer None (Some EIO) "7f3c" reportEntry
              afterUploadFileGone H0 H1 H2) as (Ht & Hd & _).
  split; [exact Ht | exact Hd].
Defined.

(** X8. Once the timer of a document has fired, its id is unknown to both
    routes: a GET and a DELETE of the id are answered 404, whatever the
    deletion of the file gave, and neither changes anything. *)
Theorem evicted_then_not_found (h : nat) (fault : option errno)
    (id p : string) (st : state) :
  timers st !! h = Some (id, p) →
  let st' := fireTimeout h fault st in
  (∀ io, getDocument io id st'
         = (Json 404 (Text "Document not found or has expired."), st'))
  ∧ (∀ fault', deleteDocument fault' id st'
               = (Json 404 (Text "Document not found or already removed."),
                  st')).
Proof.
  intros Hpending st'.
  assert (Hgone : documents st' !! id = None).
  { subst st'. unfold fireTimeout. rewrite Hpending.
    rewrite evict_documents. apply lookup_delete_eq. }
  split.
  - intros io. unfold getDocument. by rewrite Hgone.
  - intros fault'. unfold deleteDocument.
    by rewrite (removeDocument_absent fault' id st' Hgone).
Qed.

Lemma evicted_then_not_found_witness :
  timers afterUpload !! 0 = Some ("7f3c", reportPath)
  ∧ status_of (getDocument None "7f3c"
                 (fireTimeout 0 (Some EBUSY) afterUpload)).1 = 404
  ∧ status_of (deleteDocument None "7f3c"
                 (fireTimeout 0 (Some EBUSY) afterUpload)).1 = 404.
Proof.
  assert (H1 : timers afterUpload !! 0 = Some ("7f3c", reportPath))
    by (vm_compute; reflexivity).
  split; [exact H1 |].
  destruct (evicted_then_not_found 0 (Some EBUSY) "7f3c" reportPath
              afterUpload H1) as [Hget Hdel].
  split; [by rewrite (Hget None) | by rewrite (Hdel None)].
Defined.

(** X9. The release of a live document whose file is on disk and can be
    deleted is answered 204; afterwards the entry, its timer and its file
    are gone, every other file is still on disk and every other entry is
    still registered. *)
Theorem release_deletes_document (id : string) (e : entry) (st : state) :
  documents st !! id = Some e →
  entry_path e ∈ disk st →
  let st' := (deleteDocument None id st).2 in
  (deleteDocument None id st).1 = NoContent
  ∧ documents st' !! id = None
  ∧ timers st' !! entry_timeout e = None
  ∧ (entry_path e ∉ disk st')
  ∧ (∀ p, p ≠ entry_path e → p ∈ disk st → p ∈ disk st')
  ∧ (∀ id', id' ≠ id → documents st' !! id' = documents st !! id')
  ∧ trace st'
    = (trace st ++
       [ClearTimeout (entry_timeout e); MapDelete id;
        Unlink (entry_path e) None])%list.
Proof.
  intros Hentry Hfile. unfold deleteDocument.
  rewrite (removeDocument_deleted id e st Hentry Hfile).
  cbn [fst snd documents timers disk trace]. split_and!; try done.
  - apply lookup_delete_eq.
  - apply lookup_delete_eq.
  - intros [_ Hne]%elem_of_difference. apply Hne. by apply elem_of_singleton.
  - intros p Hne Hp. apply elem_of_difference. split; [done |].
    by intros ->%elem_of_singleton.
  - intros id' Hne. by apply lookup_delete_ne.
Qed.

Lemma release_deletes_document_witness :
  documents afterUpload !! "7f3c" = Some reportEntry
  ∧ reportPath ∈ disk afterUpload
  ∧ (deleteDocument None "7f3c" afterUpload).1 = NoContent
  ∧ (reportPath ∉ disk (deleteDocument None "7f3c" afterUpload).2).
Proof.
  assert (H1 : documents afterUpload !! "7f3c" = Some reportEntry)
    by (vm_compute; reflexivity).
  assert (H2 : entry_path reportEntry ∈ disk afterUpload)
    by (vm_compute; reflexivity).
  split; [exact H1 |]. split; [exact H2 |].
  destruct (release_deletes_document "7f3c" reportEntry afterUpload H1 H2)
    as (Hr & _ & _ & Hfile & _).
  split; [exact Hr | exact Hfile].
Defined.

(** X10. An event leaves alone the entries of the ids it is not about: an
    upload those of ids other than the one it draws, a retrieval or a
    release those of ids other than the one in its path, a timer those of
    ids other than the one it closes over. *)
Theorem other_documents_untouched (rt : runtime) (ev : event) (id : string)
    (st : state) :
  subject ev st ≠ Some id →
  documents (step rt ev st) !! id = documents st !! id.
Proof.
  destruct ev as [now uuid uuid' fault body | io id' | fault id' | h fault];
    simpl; intros Hother.
  - assert (Hne : id ≠ uuid) by congruence.
    destruct (upload_outcomes_registry rt now uuid uuid' fault body st)
      as [Hsame | Hins]; [by rewrite Hsame | by apply Hins].
  - assert (Hne : id' ≠ id) by congruence.
    destruct (getDocument_documents io id' st) as [-> | ->]; [done |].
    by apply lookup_delete_ne.
  - assert (Hne : id' ≠ id) by congruence.
    unfold deleteDocument.
    pose proof (removeDocument_documents fault id' st) as Hdoc.
    destruct (removeDocument fault id' st) as [[[] | code] st1];
      simpl in *; destruct Hdoc as [-> | ->]; try done;
      by apply lookup_delete_ne.
  - unfold fireTimeout.
    destruct (timers st !! h) as [closure |]; [| done].
    rewrite evict_documents. simpl in *.
    apply lookup_delete_ne. congruence.
Qed.

Lemma other_documents_untouched_witness :
  subject (Release None "91aa") afterUpload ≠ Some "7f3c"
  ∧ documents (step (node []) (Release None "91aa") afterUpload) !! "7f3c"
    = Some reportEntry.
Proof.
  assert (H1 : subject (Release None "91aa") afterUpload ≠ Some "7f3c")
    by (intros H; discriminate H).
  split; [exact H1 |].
  rewrite (other_documents_untouched (node []) (Release None "91aa") "7f3c"
             afterUpload H1).
  vm_compute. reflexivity.
Defined.

(** ** Invariants of the reachable states *)

(** X11. In every state the process can reach, the timer recorded in a
    registry entry is a pending timer handed out by [setTimeout], and its
    callback closes over the id and the path of that very entry. *)
Theorem registry_owns_timers (rt : runtime) (evs : list event) (id : string)
    (e : entry) :
  documents (run rt evs initial) !! id = Some e →
  timers (run rt evs initial) !! entry_timeout e = Some (id, entry_path e)
  ∧ entry_timeout e < nextTimer (run rt evs initial).
Proof.
  intros Hentry.
  destruct (reachable_well_formed rt evs) as [Hfresh Hown].
  pose proof (Hown id e Hentry) as Htimer.
  split; [exact Htimer |]. apply Hfresh. rewrite Htimer. by eexists.
Qed.

Lemma registry_owns_timers_witness :
  documents (run (node []) laterEvents afterUpload) !! "7f3c"
  = Some reportEntry
  ∧ timers (run (node []) laterEvents afterUpload) !! 0
    = Some ("7f3c", reportPath).
Proof.
  assert (H1 : documents
                 (run (node [])
                    (Upload 1700000000000 "7f3c" "" None [reportPdf]
                     :: laterEvents) initial) !! "7f3c"
               = Some reportEntry) by (vm_compute; reflexivity).
  split; [exact H1 |].
  exact (proj1 (registry_owns_timers (node [])
                  (Upload 1700000000000 "7f3c" "" None [reportPdf]
                   :: laterEvents) "7f3c" reportEntry H1)).
Defined.





(** ** Routing *)

(** X13. The catch-all route for the client is registered before the
    route that serves documents.  So when [client/dist] exists at start,
    a GET of /api/documents/:id is answered by [express.static] from the
    files of [client/dist], or by the catch-all route, which sends
    [client/dist/index.html]: the documents handler does not run, whatever
    the registry holds, and the registry, the timers and the upload
    directory are as before.  Only when [client/dist] does not exist does
    the request reach the handler. *)
Theorem documents_route_shadowed (rt : runtime) (id : string)
    (static : bool) (body : list part) (now : Z) (uuid uuid' : string)
    (fault : option errno) (io : option (string * bool)) (st : state) :
  let req :=
    {| req_method := GET; req_target := ApiDocument id;
       req_static := static; req_body := body; req_now := now;
       req_uuid := uuid; req_uuid' := uuid'; req_fault := fault;
       req_io := io |} in
  route rt (stack true) req st
  = (if static then StaticAsset else IndexHtml,
     emit (if static then ServeStatic (clientDistDir rt)
           else SendFile (clientDistDir rt +:+ "/index.html")) st)
  ∧ route rt (stack false) req st
    = (Handled (getDocument io id st).1, (getDocument io id st).2).
Proof.
  split.
  - simpl. by destruct static.
  - simpl. by destruct (getDocument io id st).
Qed.

(** X14. The other routes of the API are reached whether [client/dist]
    exists or not: a GET of /api/health gets the health answer, a POST of
    /api/upload is handled by the upload route and a DELETE of
    /api/documents/:id by the release route, each with the state its
    handler leaves. *)
Theorem api_routes_reached (rt : runtime) (clientDist : bool) (id : string)
    (static : bool) (body : list part) (now : Z) (uuid uuid' : string)
    (fault : option errno) (io : option (string * bool)) (st : state) :
  let req m t :=
    {| req_method := m; req_target := t;
       req_static := static; req_body := body; req_now := now;
       req_uuid := uuid; req_uuid' := uuid'; req_fault := fault;
       req_io := io |} in
  route rt (stack clientDist) (req GET ApiHealth) st = (HealthOk, st)
  ∧ route rt (stack clientDist) (req POST ApiUpload) st
    = (Handled (postUpload rt now uuid uuid' fault body st).1,
       (postUpload rt now uuid uuid' fault body st).2)
  ∧ route rt (stack clientDist) (req DELETE (ApiDocument id)) st
    = (Handled (deleteDocument fault id st).1,
       (deleteDocument fault id st).2).
Proof.
  split_and!.
  - by destruct clientDist.
  - destruct clientDist; simpl;
      by destruct (postUpload rt now uuid uuid' fault body st).
  - destruct clientDist; simpl;
      by destruct (deleteDocument fault id st).
Qed.

(** ** The client's release call against the server *)

(** X15. [deleteServerDocument] against the server's DELETE route: the
    call completes without an error when the document is released (204)
    and when the id is already unknown (404); it raises only when the
    server answers 500, that is, when the entry was live, its file on
    disk, and the deletion refused.  The message raised is the body of
    the answer, or the default text when the body is empty. *)
Theorem client_release_against_server (fault : option errno) (id : string)
    (text : string) (st : state) :
  let answer :=
    Responded (status_of (deleteDocument fault id st).1) text in
  (documents st !! id = None → deleteServerDocument answer = Done)
  ∧ (∀ e, documents st !! id = Some e →
          fault = None ∨ entry_path e ∉ disk st →
          deleteServerDocument answer = Done)
  ∧ (∀ e err, documents st !! id = Some e → entry_path e ∈ disk st →
              fault = Some err →
              deleteServerDocument answer
              = Raised (or_else text "Unable to release server document")).
Proof.
  unfold deleteDocument. split_and!.
  - intros Hnone. by rewrite (removeDocument_absent fault id st Hnone).
  - intros e Hentry Hok.
    destruct (decide (entry_path e ∈ disk st)) as [Hin | Hout].
    + destruct Hok as [-> | Hout]; [| done].
      by rewrite (removeDocument_deleted id e st Hentry Hin).
    + by rewrite (removeDocument_missing fault id e st Hentry Hout).
  - intros e err Hentry Hin ->.
    by rewrite (removeDocument_refused err id e st Hentry Hin).
Qed.

Lemma client_release_against_server_witness :
  documents afterUpload !! "7f3c" = Some reportEntry
  ∧ reportPath ∈ disk afterUpload
  ∧ deleteServerDocument
      (Responded
         (status_of (deleteDocument (Some EACCES) "7f3c" afterUpload).1) "")
    = Raised "Unable to release server document".
Proof.
  assert (H1 : documents afterUpload !! "7f3c" = Some reportEntry)
    by (vm_compute; reflexivity).
  assert (H2 : entry_path reportEntry ∈ disk afterUpload)
    by (vm_compute; reflexivity).
  split; [exact H1 |]. split; [exact H2 |].
  destruct (client_release_against_server (Some EACCES) "7f3c" "" afterUpload)
    as (_ & _ & Hraised).
  exact (Hraised reportEntry EACCES H1 H2 eq_refl).
Defined.

Lemma removeDocument_removes (fault : option errno) (id : string)
    (st : state) :
  documents (removeDocument fault id st).2 !! id = None.
Proof.
  destruct (documents st !! id) as [e |] eqn:Hentry.
  - destruct (decide (entry_path e ∈ disk st)) as [Hin | Hout].
    + destruct fault as [err |].
      * rewrite (removeDocument_refused err id e st Hentry Hin).
        apply lookup_delete_eq.
      * rewrite (removeDocument_deleted id e st Hentry Hin).
        apply lookup_delete_eq.
    + rewrite (removeDocument_missing fault id e st Hentry Hout).
      apply lookup_delete_eq.
  - by rewrite (removeDocument_absent fault id st Hentry).
Qed.

Lemma deleteDocument_state (fault : option errno) (id : string) (st : state) :
  (deleteDocument fault id st).2 = (removeDocument fault id st).2.
Proof.
  unfold deleteDocument.
  by destruct (removeDocument fault id st) as [[[] | code] st1].
Qed.

(** X16. [releaseServerDocument] makes no call for a null or an empty id.
    Against the server, releasing an id a second time logs no warning,
    whatever the first release gave: the 404 of the second answer is
    taken as done. *)
Theorem client_release_twice_silent (fault fault' : option errno)
    (id : string) (text text' : string) (st : state) :
  let st1 := (deleteDocument fault id st).2 in
  releaseServerDocument None
    (Responded (status_of (deleteDocument fault id st).1) text) = []
  ∧ releaseServerDocument (Some "")
      (Responded (status_of (deleteDocument fault id st).1) text) = []
  ∧ releaseServerDocument (Some id)
      (Responded (status_of (deleteDocument fault' id st1).1) text') = [].
Proof.
  split; [done |]. split; [done |].
  cbv zeta. rewrite deleteDocument_state.
  unfold deleteDocument.
  rewrite (removeDocument_absent fault' id _
             (removeDocument_removes fault id st)).
  cbn [fst status_of]. unfold releaseServerDocument. by destruct id.
Qed.

(** ** The handler's own type check *)

(** X17. The handler refuses by itself a file that is not declared as PDF
    (lines 114-117): it answers 400, registers nothing, sets no timer and
    asks for the file to be deleted.  A deletion that fails is ignored:
    nothing is logged and the answer is the same. *)
Theorem handler_rejects_non_pdf (rt : runtime) (now : Z) (uuid' : string)
    (fault : option errno) (f : file) (g : option string) (st : state) :
  file_mimetype f ≠ "application/pdf" →
  let r := (uploadHandler rt now uuid' fault (Some f) g st).1 in
  let st' := (uploadHandler rt now uuid' fault (Some f) g st).2 in
  r = Json 400 (Text "Only PDF files are supported.")
  ∧ documents st' = documents st
  ∧ timers st' = timers st
  ∧ (fault = None → file_path f ∉ disk st')
  ∧ (∃ err, trace st' = (trace st ++ [Unlink (file_path f) err])%list).
Proof.
  intros Hmime. unfold uploadHandler. rewrite decide_False by done.
  unfold unlink. destruct (decide (file_path f ∈ disk st)) as [Hin | Hout].
  - destruct fault as [err |]; cbn [fst snd documents timers disk trace emit].
    + split_and!; try done. by eexists.
    + split_and!; try done; [| by eexists].
      intros _ [_ Hne]%elem_of_difference. apply Hne.
      by apply elem_of_singleton.
  - cbn [fst snd documents timers disk trace emit].
    split_and!; try done. by eexists.
Qed.

Lemma handler_rejects_non_pdf_witness :
  "text/plain" ≠ "application/pdf"
  ∧ (uploadHandler (node []) 1700000000000 "91aa" (Some EACCES)
       (Some {| file_path := reportPath; file_originalname := "notes.txt";
                file_size := 10; file_mimetype := "text/plain" |})
       (Some "7f3c") (writeFile reportPath initial)).1
    = Json 400 (Text "Only PDF files are supported.").
Proof.
  assert (H1 : "text/plain" ≠ "application/pdf")
    by (intros H; discriminate H).
  split; [exact H1 |].
  exact (proj1 (handler_rejects_non_pdf (node []) 1700000000000 "91aa"
                  (Some EACCES)
                  {| file_path := reportPath;
                     file_originalname := "notes.txt";
                     file_size := 10; file_mimetype := "text/plain" |}
                  (Some "7f3c") (writeFile reportPath initial) H1)).
Defined.

(** ** The files the server touches *)

Lemma paths_in_upload_dir_kept (rt : runtime) (drawn : string → Prop)
    (st st' : state)
    (extra : list effect) :
  (∀ id e, documents st' !! id = Some e → documents st !! id = Some e) →
  (∀ h c, timers st' !! h = Some c → timers st !! h = Some c) →
  trace st' = (trace st ++ extra)%list →
  Forall (effect_in_upload_dir rt drawn) extra →
  paths_in_upload_dir rt drawn st → paths_in_upload_dir rt drawn st'.
Proof.
  intros Hdocs Htimers Htrace Hextra (Hd & Ht & Htr). split_and!.
  - intros id e He. by apply (Hd id), Hdocs.
  - intros h c Hc. by apply (Ht h), Htimers.
  - rewrite Htrace. by apply Forall_app.
Qed.

Lemma delete_lookup_kept {K : Type} `{Countable K} {A : Type}
    (m : gmap K A) (k k' : K) (x : A) :
  delete k m !! k' = Some x → m !! k' = Some x.
Proof. by intros [_ Hx]%lookup_delete_Some. Qed.

Lemma removeDocument_paths (rt : runtime) (drawn : string → Prop)
    (fault : option errno)
    (id : string) (st : state) :
  paths_in_upload_dir rt drawn st →
  paths_in_upload_dir rt drawn (removeDocument fault id st).2.
Proof.
  intros Hinv. destruct (documents st !! id) as [e |] eqn:Hentry.
  - assert (Hp : in_upload_dir rt drawn (entry_path e))
      by (destruct Hinv as [Hd _]; by apply (Hd id)).
    destruct (decide (entry_path e ∈ disk st)) as [Hin | Hout].
    + destruct fault as [err |].
      * rewrite (removeDocument_refused err id e st Hentry Hin).
        eapply (paths_in_upload_dir_kept rt drawn st); [| | reflexivity | | done];
          cbn [documents timers];
          [intros ??; apply delete_lookup_kept
          | intros ??; apply delete_lookup_kept |].
        by repeat constructor.
      * rewrite (removeDocument_deleted id e st Hentry Hin).
        eapply (paths_in_upload_dir_kept rt drawn st); [| | reflexivity | | done];
          cbn [documents timers];
          [intros ??; apply delete_lookup_kept
          | intros ??; apply delete_lookup_kept |].
        by repeat constructor.
    + rewrite (removeDocument_missing fault id e st Hentry Hout).
      eapply (paths_in_upload_dir_kept rt drawn st); [| | reflexivity | | done];
        cbn [documents timers];
        [intros ??; apply delete_lookup_kept
        | intros ??; apply delete_lookup_kept |].
      by repeat constructor.
  - by rewrite (removeDocument_absent fault id st Hentry).
Qed.

Lemma evict_paths (rt : runtime) (drawn : string → Prop)
    (closure : string * string)
    (fault : option errno) (st : state) :
  in_upload_dir rt drawn closure.2 →
  paths_in_upload_dir rt drawn st →
  paths_in_upload_dir rt drawn (evict closure fault st).
Proof.
  intros Hp Hinv. unfold evict, unlink, documents_delete, emit.
  cbn [documents timers disk trace nextTimer].
  destruct (decide (closure.2 ∈ disk st)) as [Hin | Hout].
  - destruct fault as [err |].
    + rewrite decide_False by apply errno_code_not_ENOENT.
      eapply (paths_in_upload_dir_kept rt drawn st
                _ [MapDelete closure.1; Unlink closure.2 _; _]);
        [| | | | done]; cbn [documents timers trace console_error emit].
      * intros ??; apply delete_lookup_kept.
      * done.
      * by rewrite <- !app_assoc.
      * by repeat constructor.
    + eapply (paths_in_upload_dir_kept rt drawn st
                _ [MapDelete closure.1; Unlink closure.2 _]);
        [| | | | done]; cbn [documents timers trace].
      * intros ??; apply delete_lookup_kept.
      * done.
      * by rewrite <- !app_assoc.
      * by repeat constructor.
  - rewrite decide_True by done.
    eapply (paths_in_upload_dir_kept rt drawn st
              _ [MapDelete closure.1; Unlink closure.2 _]);
      [| | | | done]; cbn [documents timers trace].
    + intros ??; apply delete_lookup_kept.
    + done.
    + by rewrite <- !app_assoc.
    + by repeat constructor.
Qed.

Lemma getDocument_paths (rt : runtime) (drawn : string → Prop)
    (io : option (string * bool))
    (id : string) (st : state) :
  paths_in_upload_dir rt drawn st →
  paths_in_upload_dir rt drawn (getDocument io id st).2.
Proof.
  intros Hinv. unfold getDocument.
  destruct (documents st !! id) as [e |] eqn:Hentry; [| done].
  assert (Hp : in_upload_dir rt drawn (entry_path e))
    by (destruct Hinv as [Hd _]; by apply (Hd id)).
  unfold sendFile. cbn [fst snd].
  destruct (if decide (entry_path e ∈ disk st)
            then match io with
                 | Some (code, sent) => SendError code sent
                 | None => SendOk
                 end
            else SendError "ENOENT" false) as [| code sent].
  - eapply (paths_in_upload_dir_kept rt drawn st _ [SendFile (entry_path e)]);
      [done | done | done | | done]. by repeat constructor.
  - destruct (decide (code = "ENOENT")); cbn [snd].
    + eapply (paths_in_upload_dir_kept rt drawn st
                _ [SendFile (entry_path e); MapDelete id]);
        [| | | | done];
        cbn [documents timers trace documents_delete emit].
      * intros ??; apply delete_lookup_kept.
      * done.
      * by rewrite <- !app_assoc.
      * by repeat constructor.
    + eapply (paths_in_upload_dir_kept rt drawn st
                _ [SendFile (entry_path e); ConsoleError _ _]);
        [| | | | done];
        cbn [documents timers trace console_error emit].
      * done.
      * done.
      * by rewrite <- !app_assoc.
      * by repeat constructor.
Qed.

Lemma postUpload_paths (rt : runtime) (drawn : string → Prop) (now : Z)
    (uuid uuid' : string) (fault : option errno) (body : list part)
    (st : state) :
  drawn uuid →
  paths_in_upload_dir rt drawn st →
  paths_in_upload_dir rt drawn (postUpload rt now uuid uuid' fault body st).2.
Proof.
  intros Hdrawn Hinv. unfold postUpload.
  destruct (upload_single_outcomes rt uuid fault body st)
    as [-> | [(f & -> & _ & Hmime & _ & Hpath)
             | (err & st1 & -> & Hd & Ht & _ & Htr & _)]].
  - done.
  - assert (Hp : in_upload_dir rt drawn (file_path f)) by (by eexists uuid, _).
    unfold uploadHandler. rewrite decide_True by done.
    rewrite registerDocument_eq. cbn [default].
    destruct Hinv as (Hdocs & Htimers & Htrace).
    assert (Hnew :
      paths_in_upload_dir rt drawn
        {| documents :=
             <[uuid := {| entry_path := file_path f;
                          entry_originalName := file_originalname f;
                          entry_size := file_size f;
                          entry_mimeType := file_mimetype f;
                          entry_expiresAt :=
                            newDate (jsadd (Finite (inject_Z now))
                                       (documentTtlMs rt));
                          entry_timeout := nextTimer st |}]> (documents st);
           timers := <[nextTimer st := (uuid, file_path f)]> (timers st);
           nextTimer := S (nextTimer st);
           disk := disk st ∪ {[file_path f]};
           trace := trace st ++ [SetTimeout (nextTimer st); MapSet uuid] |}).
    { split_and!; cbn [documents timers trace].
      - intros id e [[_ <-] | [_ He]]%lookup_insert_Some;
          [done | by apply (Hdocs id)].
      - intros h c [[_ <-] | [_ Hc]]%lookup_insert_Some;
          [done | by apply (Htimers h)].
      - apply Forall_app. split; [done | by repeat constructor]. }
    by destruct (newDate _).
  - cbn [snd].
    eapply (paths_in_upload_dir_kept rt drawn st _ []); [| | | done | done].
    + intros id e. by rewrite Hd.
    + intros h c. by rewrite Ht.
    + by rewrite Htr, app_nil_r.
Qed.

Lemma step_paths_in_upload_dir (rt : runtime) (drawn : string → Prop)
    (ev : event) (st : state) :
  (∀ id, draws id ev → drawn id) →
  paths_in_upload_dir rt drawn st → paths_in_upload_dir rt drawn (step rt ev st).
Proof.
  intros Hdraws Hinv.
  destruct ev as [now uuid uuid' fault body | io id | fault id | h fault];
    simpl.
  - apply postUpload_paths; [by apply Hdraws | done].
  - by apply getDocument_paths.
  - rewrite deleteDocument_state. by apply removeDocument_paths.
  - unfold fireTimeout.
    destruct (timers st !! h) as [closure |] eqn:Hpending; [| done].
    destruct Hinv as (Hd & Ht & Htr).
    apply evict_paths; [by apply (Ht h) |].
    split_and!; cbn [documents timers trace]; [done | | done].
    intros h' c Hc%delete_lookup_kept. by apply (Ht h').
Qed.

Lemma reachable_paths_in_upload_dir (rt : runtime) (evs : list event) :
  paths_in_upload_dir rt (λ id, Exists (draws id) evs)
    (run rt evs initial).
Proof.
  set (drawn := λ id, Exists (draws id) evs).
  assert (H : ∀ evs' st,
            (∀ ev id, ev ∈ evs' → draws id ev → drawn id) →
            paths_in_upload_dir rt drawn st →
            paths_in_upload_dir rt drawn (run rt evs' st)).
  { induction evs' as [| ev evs' IH]; intros st Hsub Hinv; simpl; [done |].
    apply IH.
    - intros ev' id Hin. apply Hsub. by apply elem_of_cons; right.
    - apply step_paths_in_upload_dir; [| done].
      intros id. apply Hsub. by apply elem_of_cons; left. }
  apply H.
  - intros ev id Hin Hdraws. apply Exists_exists. by exists ev.
  - split_and!.
    + intros id e He.
      destruct (lookup_empty_Some (M := gmap string) id e He).
    + intros h c Hc. destruct (lookup_empty_Some (M := gmap nat) h c Hc).
    + constructor.
Qed.

(** X18. The upload route, the two document routes and the eviction
    timers read and delete only files the upload route made.  In every
    state reached by uploads, retrievals, releases and timer firings, a
    path these have passed to [res.sendFile] or to [unlink], a path held
    in the registry and a path a pending timer will delete is in the
    upload directory, and is made of an identifier drawn for one of the
    uploads and of an extension.  (The static layers of lines 132-136,
    which send files of [client/dist], are not among these events.) *)
Theorem touches_only_uploads (rt : runtime) (evs : list event) (p : string) :
  (∃ err, Unlink p err ∈ trace (run rt evs initial))
  ∨ SendFile p ∈ trace (run rt evs initial)
  ∨ (∃ id e, documents (run rt evs initial) !! id = Some e
             ∧ entry_path e = p)
  ∨ (∃ h id, timers (run rt evs initial) !! h = Some (id, p)) →
  ∃ id name,
    Exists (draws id) evs
    ∧ p = uploadDir rt +:+ "/" +:+ id +:+ storageExt rt name.
Proof.
  destruct (reachable_paths_in_upload_dir rt evs) as (Hd & Ht & Htr).
  rewrite Forall_forall in Htr.
  intros [[err Hin] | [Hin | [(id & e & He & <-) | (h & id & Hh)]]].
  - exact (Htr _ Hin).
  - exact (Htr _ Hin).
  - exact (Hd id e He).
  - exact (Ht h (id, p) Hh).
Qed.

Lemma touches_only_uploads_witness :
  Unlink reportPath None
  ∈ trace (run (node [])
             [Upload 1700000000000 "7f3c" "" None [reportPdf];
              Release None "7f3c"] initial)
  ∧ ∃ id name,
      Exists (draws id)
        [Upload 1700000000000 "7f3c" "" None [reportPdf];
         Release None "7f3c"]
      ∧ reportPath
        = uploadDir (node []) +:+ "/" +:+ id +:+ storageExt (node []) name.
Proof.
  assert (H1 : Unlink reportPath None
               ∈ trace (run (node [])
                          [Upload 1700000000000 "7f3c" "" None [reportPdf];
                           Release None "7f3c"] initial)).
  { vm_compute. repeat constructor. }
  split; [exact H1 |].
  apply (touches_only_uploads (node [])
           [Upload 1700000000000 "7f3c" "" None [reportPdf];
            Release None "7f3c"] reportPath).
  left. by exists None.
Defined.

(** * Properties of the client and of the download script *)

(** ** The page-turn animation *)

Lemma clamp_unit (value : Q) :
  (0 <= clamp value 0 1)%Q ∧ (clamp value 0 1 <= 1)%Q
  ∧ ((clamp value 0 1 < 1)%Q ↔ (value < 1)%Q).
Proof.
  unfold clamp.
  destruct (Q.max_spec 0 (Qmin 1 value)) as [[Hlt Heq] | [Hle Heq]];
    destruct (Q.min_spec 1 value) as [[Hlt' Heq'] | [Hle' Heq']];
    rewrite Heq; rewrite ?Heq' in *; split_and!; try split; intros; lra.
Qed.

Lemma easeOutCubic_unit (value : Q) :
  (0 <= value)%Q → (value < 1)%Q →
  (0 <= easeOutCubic value)%Q ∧ (easeOutCubic value < 1)%Q.
Proof.
  intros H0 H1. unfold easeOutCubic. simpl.
  assert (Hu0 : (0 < 1 - value)%Q) by lra.
  assert (Hu1 : (1 - value <= 1)%Q) by lra.
  set (u := (1 - value)%Q) in *.
  assert (Hsq : (0 < u * u)%Q) by nra.
  split; nra.
Qed.

(** X19. Whatever the timestamps of the frames (numbers taken as exact),
    a page turn goes on, with a progress between 0 and 1, while less than
    720 ms have passed since its start, a frame whose timestamp is before
    the start included, and it lands at the first frame 720 ms or more
    after the start.  While it goes on the angle of the turning page
    stays between -180 and 0 degrees, forward and backward. *)
Theorem turn_progress_bounded (start now : Q) :
  match tick start now with
  | Turning p =>
      (now - start < 720)%Q
      ∧ (0 <= p)%Q ∧ (p <= 1)%Q
      ∧ (-180 <= flipAngleForward p)%Q ∧ (flipAngleForward p <= 0)%Q
      ∧ (-180 <= flipAngleBackward p)%Q ∧ (flipAngleBackward p <= 0)%Q
  | Landed => (720 <= now - start)%Q
  end.
Proof.
  unfold tick, TURN_DURATION.
  destruct (clamp_unit ((now - start) / 720)) as (H0 & H1 & Hlt).
  assert (Hdiv : ((now - start) / 720 < 1)%Q ↔ (now - start < 720)%Q).
  { split; intros H.
    - apply Qnot_le_lt. intros Hle.
      apply (Qlt_not_le _ _ H). apply Qle_shift_div_l; lra.
    - apply Qlt_shift_div_r; lra. }
  destruct (Qlt_le_dec (clamp ((now - start) / 720) 0 1) 1) as [Hon | Hoff].
  - destruct (easeOutCubic_unit _ H0 Hon) as [Hp0 Hp1].
    unfold flipAngleForward, flipAngleBackward.
    split; [by apply Hdiv, Hlt |]. split_and!; lra.
  - apply Qnot_lt_le. intros Hlate. apply Hdiv, Hlt in Hlate. lra.
Qed.

(** X20. A page turn never swings back: of two frames of the same turn,
    the later one has the larger or the same progress, and a turn that
    has landed at a frame has landed at every later frame. *)
Theorem turn_progress_monotone (start now now' : Q) :
  (now <= now')%Q →
  match tick start now, tick start now' with
  | Turning p, Turning p' => (p <= p')%Q
  | Landed, Turning _ => False
  | _, Landed => True
  end.
Proof.
  intros Horder. unfold tick, TURN_DURATION.
  set (v := ((now - start) / 720)%Q). set (v' := ((now' - start) / 720)%Q).
  assert (Hv : (v <= v')%Q).
  { unfold v, v', Qdiv. apply Qmult_le_compat_r; [lra | done]. }
  assert (Hc : (clamp v 0 1 <= clamp v' 0 1)%Q).
  { unfold clamp. apply Q.max_le_compat_l, Q.min_le_compat_l, Hv. }
  destruct (clamp_unit v) as (H0 & H1 & _).
  destruct (clamp_unit v') as (H0' & H1' & _).
  destruct (Qlt_le_dec (clamp v 0 1) 1) as [Hon | Hoff];
    destruct (Qlt_le_dec (clamp v' 0 1) 1) as [Hon' | Hoff']; try done.
  - unfold easeOutCubic. simpl.
    set (u := (1 - clamp v 0 1)%Q). set (u' := (1 - clamp v' 0 1)%Q).
    assert (Hu : (0 <= u')%Q ∧ (u' <= u)%Q) by (unfold u, u'; lra).
    destruct Hu as [Hu0 Hu1].
    assert (Hsq : (u' * u' <= u * u)%Q) by nra.
    assert (Hsq0 : (0 <= u' * u')%Q) by nra.
    nra.
  - lra.
Qed.

Lemma turn_progress_monotone_witness :
  (100 <= 360)%Q
  ∧ tick 1000 1100 = Turning (easeOutCubic (clamp (100 / 720) 0 1))
  ∧ tick 1000 1360 = Turning (easeOutCubic (clamp (360 / 720) 0 1))
  ∧ (easeOutCubic (clamp (100 / 720) 0 1)
     <= easeOutCubic (clamp (360 / 720) 0 1))%Q.
Proof.
  assert (H0 : (100 <= 360)%Q) by (vm_compute; discriminate).
  assert (H1 : (1100 <= 1360)%Q) by (vm_compute; discriminate).
  split; [exact H0 |].
  pose proof (turn_progress_monotone 1000 1100 1360 H1) as H.
  split; [vm_compute; reflexivity |]. split; [vm_compute; reflexivity |].
  vm_compute in H. vm_compute. exact H.
Defined.

(** ** The CMap download *)

Lemma downloadStreamFrom_step (get : string → httpsGet)
    (resolveUrl : string → string → string) (fuel : nat) (url : string)
    (redirectCount : nat) :
  (redirectCount ≤ 5)%nat →
  downloadStreamFrom (S fuel) get resolveUrl url redirectCount
  = match get url with
    | GetError message => Some (RejectedWith (NetworkError message), [url])
    | GetResponse statusCode location =>
        match
          (if (300 <=? statusCode)%nat && (statusCode <? 400)%nat
           then truthy location else None)
        with
        | Some target =>
            match
              downloadStreamFrom fuel get resolveUrl
                (resolveUrl target url) (redirectCount + 1)
            with
            | Some (outcome, urls) => Some (outcome, url :: urls)
            | None => None
            end
        | None =>
            if (statusCode =? 200)%nat then Some (Resolved url, [url])
            else Some (RejectedWith (BadStatus url statusCode), [url])
        end
    end.
Proof.
  intros Hfew. cbn [downloadStreamFrom].
  by rewrite (proj2 (Nat.ltb_ge 5 redirectCount)) by lia.
Qed.

Lemma downloadStreamFrom_many (get : string → httpsGet)
    (resolveUrl : string → string → string) (fuel : nat) (url : string)
    (redirectCount : nat) :
  (5 < redirectCount)%nat →
  downloadStreamFrom fuel get resolveUrl url redirectCount
  = Some (RejectedWith TooManyRedirects, []).
Proof.
  intros Hmany. destruct fuel; cbn [downloadStreamFrom];
    by rewrite (proj2 (Nat.ltb_lt 5 redirectCount)) by lia.
Qed.

Lemma downloadStreamFrom_bounded (get : string → httpsGet)
    (resolveUrl : string → string → string) (fuel : nat) (url : string)
    (redirectCount : nat) :
  (6 ≤ fuel + redirectCount)%nat →
  ∃ outcome urls,
    downloadStreamFrom fuel get resolveUrl url redirectCount
    = Some (outcome, urls)
    ∧ (length urls + redirectCount ≤ Nat.max 6 redirectCount)%nat
    ∧ (outcome = RejectedWith TooManyRedirects →
       (6 ≤ length urls + redirectCount)%nat)
    ∧ (∀ u, outcome = Resolved u →
            last urls = Some u ∧ ∃ location, get u = GetResponse 200 location).
Proof.
  revert url redirectCount.
  induction fuel as [| fuel IH]; intros url redirectCount Hfuel.
  - rewrite downloadStreamFrom_many by lia.
    eexists _, _. split; [done |]. simpl. split_and!; [lia | lia | done].
  - destruct (decide (5 < redirectCount)%nat) as [Hmany | Hfew].
    { rewrite downloadStreamFrom_many by lia.
      eexists _, _. split; [done |]. simpl. split_and!; [lia | lia | done]. }
    rewrite downloadStreamFrom_step by lia.
    destruct (get url) as [message | statusCode location] eqn:Hget.
    { eexists _, _. split; [done |]. simpl. split_and!; [lia | done | done]. }
    destruct (if (300 <=? statusCode)%nat && (statusCode <? 400)%nat
              then truthy location else None) as [target |] eqn:Hredirect.
    + destruct (IH (resolveUrl target url) (redirectCount + 1)%nat)
        as (outcome & urls & Hrest & Hlen & Hmax & Hok); [lia |].
      rewrite Hrest.
      eexists _, _. split; [done |]. simpl. split_and!.
      * lia.
      * intros Hout. specialize (Hmax Hout). lia.
      * intros u Hout. destruct (Hok u Hout) as [Hlast Hresp].
        split; [| done]. destruct urls; [done | exact Hlast].
    + destruct (statusCode =? 200)%nat eqn:Hstatus.
      * apply Nat.eqb_eq in Hstatus as ->.
        eexists _, _. split; [done |]. simpl.
        split_and!; [lia | done |].
        intros u [= <-]. split; [done | by eexists].
      * eexists _, _. split; [done |]. simpl.
        split_and!; [lia | done | done].
Qed.

(** X21. [downloadStream] follows at most five redirects.  Whatever the
    servers answer, it settles after at most six requests; it fails with
    "Too many redirects" only after six requests that were all
    redirected; and it resolves only with the response of the last URL
    it requested, whose status is 200. *)
Theorem download_redirects_bounded (get : string → httpsGet)
    (resolveUrl : string → string → string) (url : string) :
  ∃ outcome urls,
    downloadStream get resolveUrl url = Some (outcome, urls)
    ∧ (length urls ≤ 6)%nat
    ∧ (outcome = RejectedWith TooManyRedirects → length urls = 6%nat)
    ∧ (∀ u, outcome = Resolved u →
            last urls = Some u ∧ ∃ location, get u = GetResponse 200 location).
Proof.
  destruct (downloadStreamFrom_bounded get resolveUrl 6 url 0)
    as (outcome & urls & Heq & Hlen & Hmany & Hok); [lia |].
  exists outcome, urls. split; [exact Heq |].
  split_and!; [lia | | exact Hok].
  intros Hout. specialize (Hmany Hout). lia.
Qed.
